(** * linear_learner_workshop: the notebook's own helpers, verified

    The notebook [linear_learner_workshop.ipynb] contains three pieces of
    logic of its own:

    - cell 9, which shuffles the raw table with [np.random.seed(0)] /
      [np.random.shuffle] and cuts it at [int(raw_data.shape[0] * 0.7)]
      into training and test features and labels;
    - [evaluate], which scores a prediction endpoint on the test set;
    - [delete_endpoint], which removes an endpoint and swallows any
      exception.

    Python values are embedded as follows.  A Python exception is a
    constructor of [exn] and a computation that may raise has type
    [outcome A].  A numpy [float64] (and a Python [float]) is a primitive
    binary64 [float]; a Python [int] and a numpy [int64] count is a [Z].
    A two-dimensional [ndarray] is its column count together with its list
    of rows, a one-dimensional one is a list. *)

From Stdlib Require Import ZArith Lia Floats Uint63 Permutation.
From stdpp Require Import base tactics option list strings gmap.

(** ** Python outcomes *)

Module Py.

Inductive exn : Set :=
  | IndexError
  | ValueError
  | OverflowError
  | ClientError
  | ConnectionError.

Inductive outcome (A : Type) : Type :=
  | Returned (a : A)
  | Raised (e : exn).
Arguments Returned {A} a.
Arguments Raised {A} e.

Definition bind {A B} (c : outcome A) (k : A -> outcome B) : outcome B :=
  match c with
  | Returned a => k a
  | Raised e => Raised e
  end.

Definition raises {A} (c : outcome A) : Prop := exists e, c = Raised e.

End Py.
Import Py.

#[global] Instance outcome_ret : MRet outcome := fun A a => Returned a.
#[global] Instance outcome_bind : MBind outcome := fun A B k c => Py.bind c k.
#[global] Instance outcome_fmap : FMap outcome :=
  fun A B f c => Py.bind c (fun a => Returned (f a)).

(** ** binary64 arithmetic as the notebook uses it *)

Module Binary64.

(** [int -> float] conversion of a non-negative Python [int] below [2^63]
    (row counts and confusion counts are array lengths). *)
Definition tofloat (z : Z) : float := PrimFloat.of_uint63 (Uint63.of_Z z).

(** Python's [int(x)]: truncation toward zero; [OverflowError] on an
    infinity and [ValueError] on a NaN. *)
Definition int_ (x : float) : outcome Z :=
  match Prim2SF x with
  | S754_zero _ => Returned 0%Z
  | S754_finite s m e => Returned (cond_Zopp s (Z.shiftl (Zpos m) e))
  | S754_infinity _ => Raised OverflowError
  | S754_nan => Raised ValueError
  end.

(** The literal [0.7]: the double nearest to 7/10, [0x1.6666666666666p-1]. *)
Definition split_fraction : float := 0x1.6666666666666p-1%float.

(** Mantissa of [split_fraction]: [split_fraction = M07 / 2^53]. *)
Definition M07 : Z := 6305039478318694%Z.

(** [train_size = int(raw_data.shape[0] * 0.7)] *)
Definition train_size (shape0 : Z) : outcome Z :=
  int_ (tofloat shape0 * split_fraction)%float.

(** Round-to-nearest-even on a mantissa, in the terms of [SpecFloat]: the
    shift record after dropping [k] low bits of [m]. *)
Definition shr_rec (m k : Z) : shr_record :=
  if (k =? 0)%Z then Build_shr_record m false false
  else Build_shr_record ((m / 2 ^ k)%Z) (Z.odd (m / 2 ^ (k - 1))%Z)
         (negb (m mod 2 ^ (k - 1) =? 0)%Z).

(** The mantissa chosen by round-to-nearest-even after dropping [k] bits. *)
Definition rne (m k : Z) : Z :=
  round_nearest_even (shr_m (shr_rec m k)) (loc_of_shr_record (shr_rec m k)).

(** A float that is not negative: a zero, a finite number or an infinity
    with a clear sign bit, or a NaN. *)
Definition sf_nonneg (x : spec_float) : Prop :=
  match x with
  | S754_zero false | S754_infinity false | S754_finite false _ _ | S754_nan =>
      True
  | _ => False
  end.

Definition sf_nonzero (x : spec_float) : Prop :=
  match x with
  | S754_zero _ => False
  | _ => True
  end.

End Binary64.
Import Binary64.

(** ** numpy arrays and the legacy [np.random] generator *)

Module Numpy.

(** A Python slice bound [k] on a sequence of length [len]: a negative
    bound counts from the end, and bounds are clipped to the sequence. *)
Definition slice_index (k : Z) (len : nat) : nat :=
  if (k <? 0)%Z then Z.to_nat (Z.of_nat len + k) else Z.to_nat k.

(** [x[:k]] and [x[k:]] *)
Definition slice_to {B} (k : Z) (x : list B) : list B :=
  take (slice_index k (length x)) x.
Definition slice_from {B} (k : Z) (x : list B) : list B :=
  drop (slice_index k (length x)) x.

Section Arrays.
Context {A : Type}.

(** A two-dimensional array of shape [(length rows, ncols)]. *)
Record ndarray2 := { ncols : nat; rows : list (list A) }.

Definition wf (a : ndarray2) : Prop :=
  Forall (fun r => length r = ncols a) (rows a).

(** Column selectors applied to rows already selected: [a[..., :-1]] never
    raises; [a[..., -1]] raises [IndexError] on an array without columns. *)
Definition all_but_last_column (rs : list (list A)) : list (list A) :=
  map (slice_to (-1)) rs.

Definition last_column (nc : nat) (rs : list (list A)) : outcome (list A) :=
  if decide (nc = 0) then Raised IndexError
  else match mapM last rs with
       | Some c => Returned c
       | None => Raised IndexError
       end.

End Arrays.
Arguments ndarray2 : clear implicits.

(** [np.array_split(ary, Nsections)] along the first axis: the first
    [Ntotal mod Nsections] sections get one row more than the others. *)
Definition section_sizes (Ntotal Nsections : nat) : list nat :=
  let Neach_section := Ntotal / Nsections in
  let extras := Ntotal mod Nsections in
  0 :: (replicate extras (Neach_section + 1)
        ++ replicate (Nsections - extras) Neach_section).

Fixpoint cumsum_from (acc : nat) (l : list nat) : list nat :=
  match l with
  | [] => []
  | x :: l' => (acc + x) :: cumsum_from (acc + x) l'
  end.
Definition cumsum (l : list nat) : list nat := cumsum_from 0 l.

Definition array_split {B} (ary : list B) (Nsections : nat) : list (list B) :=
  let div_points := cumsum (section_sizes (length ary) Nsections) in
  map (fun i =>
         let st := div_points !!! i in
         let end_ := div_points !!! (i + 1) in
         take (end_ - st) (drop st ary))
      (seq 0 Nsections).

(** The legacy [RandomState.shuffle] on an array with more than one axis:
    a Fisher-Yates pass that exchanges whole rows,
    [for i in reversed(range(1, n)): j = random_interval(i); swap x[i], x[j]].
    The bit generator is a parameter: [random_interval g max] draws an
    integer in [[0, max]] and returns the advanced state. *)
Section Shuffle.
Context {rng : Type}.
Variable random_interval : rng -> nat -> nat * rng.

(** [x[i], x[j]] exchanged.  The draw [j] lies in [[0, i]] and [i] below the
    length, so both rows exist; for positions outside the array (which the
    loop never produces) the array is left as it is. *)
Definition swap_rows {B} (x : list B) (i j : nat) : list B :=
  if decide (i = j) then x
  else match x !! i, x !! j with
       | Some xi, Some xj => <[i := xj]> (<[j := xi]> x)
       | _, _ => x
       end.

Fixpoint shuffle_loop {B} (i : nat) (x : list B) (g : rng) : list B * rng :=
  match i with
  | 0 => (x, g)
  | S i' =>
      let '(j, g') := random_interval g i in
      shuffle_loop i' (swap_rows x i j) g'
  end.

Definition shuffle {B} (x : list B) (g : rng) : list B * rng :=
  shuffle_loop (length x - 1) x g.

End Shuffle.
End Numpy.
Import Numpy.

(** ** Cell 9: shuffle and split *)

Section Splitter.
Context {A : Type} {rng : Type}.
(** [seed_state s] is the generator state that [np.random.seed(s)] installs. *)
Variable seed_state : Z -> rng.
Variable random_interval : rng -> nat -> nat * rng.

Record Split := {
  train_features : list (list A);
  train_labels : list A;
  test_features : list (list A);
  test_labels : list A
}.

(** The cell, as a transformer of the process-wide generator state [g].
    [np.random.seed] overwrites that state; the seed is 0 in the notebook. *)
Definition split (seed : Z) (raw_data : ndarray2 A) (g : rng)
  : outcome Split * rng :=
  let g := seed_state seed in
  let '(shuffled, g) := shuffle random_interval (rows raw_data) g in
  (train_size ← train_size (Z.of_nat (length shuffled));
   let train_features := all_but_last_column (slice_to train_size shuffled) in
   train_labels ← last_column (ncols raw_data) (slice_to train_size shuffled);
   let test_features := all_but_last_column (slice_from train_size shuffled) in
   test_labels ← last_column (ncols raw_data) (slice_from train_size shuffled);
   mret {| train_features := train_features; train_labels := train_labels;
           test_features := test_features; test_labels := test_labels |},
   g).

Definition notebook_split : ndarray2 A -> rng -> outcome Split * rng := split 0.

(** The permutation of row positions that the shuffle applies to an array
    of [n] rows after [np.random.seed(seed)]. *)
Definition shuffled_positions (seed : Z) (n : nat) : list nat :=
  (shuffle random_interval (seq 0 n) (seed_state seed)).1.

(** [fs] and [ls] are the features and labels of the records of [d] at the
    positions [idx], in that order. *)
Definition drawn_from (d : ndarray2 A) (fs : list (list A)) (ls : list A)
    (idx : list nat) : Prop :=
  Forall2 (fun f i => exists r, rows d !! i = Some r /\ f = slice_to (-1) r) fs idx /\
  Forall2 (fun l i => exists r, rows d !! i = Some r /\ last r = Some l) ls idx.

(** The records of a subset, put together again: each feature row followed
    by its label. *)
Definition records (fs : list (list A)) (ls : list A) : list (list A) :=
  zip_with (fun f l => f ++ [l]) fs ls.

(** Each label of [ls] sits at the position of the feature row it
    accompanied in some record of [d]. *)
Definition paired_with (d : ndarray2 A) (fs : list (list A)) (ls : list A)
  : Prop :=
  length fs = length ls /\
  forall p f l, fs !! p = Some f -> ls !! p = Some l ->
    exists i r, rows d !! i = Some r /\ f = slice_to (-1) r /\ last r = Some l.

End Splitter.

(** ** [evaluate]: scoring an endpoint on the test set *)

Module Evaluator.

(** One entry of the endpoint's JSON answer, and the answer itself
    ([linear_predictor.predict(batch)]). *)
Record prediction := { score : float; predicted_label : float }.
Record response := { predictions : list prediction }.

(** The dictionary that [evaluate] returns. *)
Record MetricsResult := {
  TP : Z; FP : Z; FN : Z; TN : Z;
  Precision : float; Recall : float; Accuracy : float; F1 : float;
  Model : string
}.

(** numpy truth value of a number: anything but zero (a NaN included). *)
Definition truthy (x : float) : bool := negb (x =? 0)%float.

(** Element-wise binary operation on one-dimensional arrays, with numpy's
    broadcasting: equal lengths pair up, a length-one array is stretched,
    any other pair of lengths raises [ValueError]. *)
Definition broadcast2 {B C D} (f : B -> C -> D) (x : list B) (y : list C)
  : outcome (list D) :=
  if decide (length x = length y) then Returned (zip_with f x y)
  else match x, y with
       | [a], _ => Returned (map (f a) y)
       | _, [b] => Returned (map (fun a => f a b) x)
       | _, _ => Raised ValueError
       end.

Definition logical_and (x y : list float) : outcome (list bool) :=
  broadcast2 (fun a b => truthy a && truthy b) x y.

(** [1 - x] on an array *)
Definition one_minus (x : list float) : list float :=
  map (fun a => (1 - a)%float) x.

(** [.sum()] of a boolean array *)
Definition sum (b : list bool) : Z :=
  foldr (fun x acc => (Z.b2z x + acc)%Z) 0%Z b.

(** True division of two [int64] counts, a [float64]; a zero denominator
    gives NaN or an infinity (with a warning), not an exception. *)
Definition true_divide (a b : Z) : float := (tofloat a / tofloat b)%float.

(** Modelled from the spec: the notebook leaves [recall = # TODO]
    unwritten in [evaluate]; section 4.2 of the specification gives
    true positive / (true positive + false negative), not-a-number when the
    denominator is 0.  On the [int64] counts of the surrounding code that
    is numpy's true division. *)
Definition recall_of (tp fn : Z) : float := true_divide tp (tp + fn).

(** Modelled from the spec: [precision = # TODO] in the notebook; section
    4.2 of the specification gives true positive / (true positive + false
    positive), with the same policy for a zero denominator. *)
Definition precision_of (tp fp : Z) : float := true_divide tp (tp + fp).

(** [pd.crosstab(test_labels, test_preds, ...)] builds a frame from the two
    arrays and raises [ValueError] when their lengths differ.  The text that
    [print] writes is not modelled. *)
Definition print_report (test_labels test_preds : list float) : outcome unit :=
  if decide (length test_labels = length test_preds) then Returned ()
  else Raised ValueError.

(** The predicted labels: the test rows go to the endpoint in 100 batches
    and the labels of the answers are concatenated. *)
Definition predict_labels (linear_predictor : list (list float) -> response)
    (test_features : list (list float)) : list float :=
  let prediction_batches :=
    map (fun batch => predictions (linear_predictor batch))
        (array_split test_features 100) in
  concat (map (fun batch => map predicted_label batch) prediction_batches).

Definition evaluate (linear_predictor : list (list float) -> response)
    (test_features : list (list float)) (test_labels : list float)
    (model_name : string) (verbose : bool) : outcome MetricsResult :=
  let test_preds := predict_labels linear_predictor test_features in
  tp ← sum <$> logical_and test_labels test_preds;
  fp ← sum <$> logical_and (one_minus test_labels) test_preds;
  tn ← sum <$> logical_and (one_minus test_labels) (one_minus test_preds);
  fn ← sum <$> logical_and test_labels (one_minus test_preds);
  let recall := recall_of tp fn in
  let precision := precision_of tp fp in
  let accuracy := true_divide (tp + tn) (tp + fp + tn + fn) in
  let f1 := (2 * precision * recall / (precision + recall))%float in
  _ ← (if verbose then print_report test_labels test_preds else mret ());
  mret {| TP := tp; FP := fp; FN := fn; TN := tn;
          Precision := precision; Recall := recall; Accuracy := accuracy;
          F1 := f1; Model := model_name |}.

(** The confusion counts in the words of the specification: the number of
    positions at which the true label and the predicted label have the
    given values. *)
Fixpoint count_positions (t p : float) (labels preds : list float) : Z :=
  match labels, preds with
  | l :: labels', q :: preds' =>
      ((if (l =? t)%float && (q =? p)%float then 1 else 0)
       + count_positions t p labels' preds')%Z
  | _, _ => 0%Z
  end.

Definition spec_true_positive := count_positions 1 1.
Definition spec_false_positive := count_positions 0 1.
Definition spec_true_negative := count_positions 0 0.
Definition spec_false_negative := count_positions 1 0.

(** A binary label. *)
Definition binary (x : float) : Prop := x = 0%float \/ x = 1%float.

End Evaluator.
Import Evaluator.

(** ** [delete_endpoint] *)

Module Reclaimer.

(** The handle returned by [deploy]; only its endpoint name is used. *)
Record predictor := { endpoint : string }.

(** What [delete_endpoint] acts on: the endpoints that exist in the hosting
    service, and the lines printed so far. *)
Record world := { live : gset string; stdout : list string }.

(** [boto3.client('sagemaker').delete_endpoint(EndpointName=name)].  The
    request may fail on the way ([fault], e.g. a dropped connection);
    otherwise the service removes the endpoint, or answers with a
    [ClientError] when no endpoint has that name. *)
Definition sagemaker_delete_endpoint (fault : option exn) (name : string)
    (svc : gset string) : outcome unit * gset string :=
  match fault with
  | Some e => (Raised e, svc)
  | None =>
      if decide (name ∈ svc) then (Returned (), svc ∖ {[name]})
      else (Raised ClientError, svc)
  end.

(** [try: delete; print('Deleted ...') except: print('Already deleted: ...')] *)
Definition delete_endpoint (fault : option exn) (p : predictor) (w : world)
  : outcome unit * world :=
  match sagemaker_delete_endpoint fault (endpoint p) (live w) with
  | (Returned _, svc) =>
      (Returned (),
       {| live := svc; stdout := stdout w ++ ["Deleted " +:+ endpoint p] |})
  | (Raised _, svc) =>
      (Returned (),
       {| live := svc;
          stdout := stdout w ++ ["Already deleted: " +:+ endpoint p] |})
  end.

End Reclaimer.
Import Reclaimer.

(** ** Concrete inputs for the examples *)

Module Examples.

(** A linear congruential generator in the role of the bit generator. *)
Definition lcg_seed (s : Z) : Z := (s mod 2147483648)%Z.
Definition lcg_interval (g : Z) (max : nat) : nat * Z :=
  let g' := ((1103515245 * g + 12345) mod 2147483648)%Z in
  (Z.to_nat (g' mod (Z.of_nat max + 1)), g').

(** A table of [n] rows [[i; i mod 2]]: one feature and a binary label. *)
Definition table (n : nat) : ndarray2 Z :=
  {| ncols := 2;
     rows := map (fun i => [Z.of_nat i; Z.of_nat (i mod 2)]) (seq 0 n) |}.

(** A table with the 31 columns of [creditcard.csv] and no rows. *)
Definition empty_table : ndarray2 Z := {| ncols := 31; rows := [] |}.

(** An endpoint that answers each row with its first feature as label. *)
Definition echo_predictor (batch : list (list float)) : response :=
  {| predictions :=
       map (fun row => {| score := hd 0%float row;
                          predicted_label := hd 0%float row |}) batch |}.

End Examples.

(** ** Cell 7: where the training data goes *)

Module Locations.

(** The separator ['/'] (character 47). *)
Definition sep : Ascii.ascii :=
  Ascii.Ascii true true true true false true false false.

(** [s.startswith('/')] and [s.endswith('/')] *)
Definition startswith_sep (s : string) : bool :=
  match s with
  | String c _ => Ascii.eqb c sep
  | EmptyString => false
  end.

Fixpoint endswith_sep (s : string) : bool :=
  match s with
  | EmptyString => false
  | String c EmptyString => Ascii.eqb c sep
  | String _ s' => endswith_sep s'
  end.

(** One round of the loop of [os.path.join] (posixpath): an absolute
    component replaces what was joined so far; otherwise it is appended,
    after a separator unless the path is empty or already ends with one. *)
Definition join_step (path b : string) : string :=
  if startswith_sep b then b
  else if String.eqb path "" || endswith_sep path then path +:+ b
  else path +:+ "/" +:+ b.

Definition os_path_join (a : string) (p : list string) : string :=
  foldl join_step a p.

Definition prefix : string := "sagemaker/DEMO-linear-learner-loss-weights".

(** ['{}/train/recordio-pb-data'.format(prefix)] *)
Definition s3_train_key : string := prefix +:+ "/train/recordio-pb-data".

(** [os.path.join('s3://', bucket, s3_train_key)]; the bucket is the
    reader's own (left open in the notebook). *)
Definition s3_train_path (bucket : string) : string :=
  os_path_join "s3://" [bucket; s3_train_key].

End Locations.
Import Locations.

(** ** Cell 9, second half: conversion of the training subset *)

Section Conversion.
Context {A B : Type}.

(** [.astype(dtype)] with element conversion [conv], on a table and on the
    four arrays of a split. *)
Definition astype (conv : A -> B) (a : ndarray2 A) : ndarray2 B :=
  {| ncols := ncols a; rows := map (map conv) (rows a) |}.

Definition astype_split (conv : A -> B) (s : Split (A:=A)) : Split (A:=B) :=
  {| train_features := map (map conv) (train_features s);
     train_labels := map conv (train_labels s);
     test_features := map (map conv) (test_features s);
     test_labels := map conv (test_labels s) |}.

(** What the cell hands to [write_numpy_to_dense_tensor]: the training
    features and labels, converted element by element. *)
Definition vectors (conv : A -> B) (s : Split (A:=A)) : list (list B) :=
  map (map conv) (train_features s).

Definition labels (conv : A -> B) (s : Split (A:=A)) : list B :=
  map conv (train_labels s).

End Conversion.

(** ** Counting labels *)

(** The number of entries equal to 1. *)
Definition count_ones (x : list float) : Z :=
  foldr (fun a acc => ((if (a =? 1)%float then 1 else 0) + acc)%Z) 0%Z x.

(** ** The last cell: deleting every endpoint *)

(** [for predictor in [...]: delete_endpoint(predictor)]; each call comes
    with what happens to its request ([None]: it reaches the service). *)
Fixpoint clean_up (calls : list (option exn * predictor)) (w : world)
  : outcome unit * world :=
  match calls with
  | [] => (Returned (), w)
  | (fault, p) :: rest =>
      match delete_endpoint fault p w with
      | (Returned _, w') => clean_up rest w'
      | (Raised e, w') => (Raised e, w')
      end
  end.
(** *** Rounding to nearest even, read off [SpecFloat] *)

Section Rounding.
Local Open Scope Z_scope.

Lemma digits2_pos_size p : digits2_pos p = Pos.size p.
Proof. induction p; simpl; congruence. Qed.

Lemma Zdigits2_log2 p : Zdigits2 (Zpos p) = Z.log2 (Zpos p) + 1.
Proof.
  unfold Zdigits2. rewrite digits2_pos_size.
  destruct p; simpl; lia.
Qed.

Lemma Zdigits2_unique x d :
  0 < x -> 2 ^ (d - 1) <= x < 2 ^ d -> Zdigits2 x = d.
Proof.
  intros Hx Hd. destruct x as [|p|p]; try lia.
  rewrite Zdigits2_log2.
  assert (0 <= d - 1).
  { destruct (Z.le_gt_cases 0 (d - 1)) as [|Hn]; [done|].
    assert (d <= 0) by lia.
    assert (2 ^ d <= 2 ^ 0) by (apply Z.pow_le_mono_r; lia).
    simpl in *; lia. }
  rewrite (Z.log2_unique (Zpos p) (d - 1)); [lia|lia|].
  replace (Z.succ (d - 1)) with d by lia. done.
Qed.

Lemma Zdigits2_bounds x :
  0 < x -> 0 < Zdigits2 x /\ 2 ^ (Zdigits2 x - 1) <= x < 2 ^ Zdigits2 x.
Proof.
  intros Hx. destruct x as [|p|p]; try lia.
  rewrite Zdigits2_log2.
  pose proof (Z.log2_nonneg (Zpos p)).
  pose proof (Z.log2_spec (Zpos p) Hx) as Hs.
  replace (Z.log2 (Zpos p) + 1 - 1) with (Z.log2 (Zpos p)) by lia.
  replace (Z.log2 (Zpos p) + 1) with (Z.succ (Z.log2 (Zpos p))) by lia.
  lia.
Qed.

(** [iter_pos] is plain iteration. *)
Lemma iter_pos_nat {A} (f : A -> A) p x :
  SpecFloat.iter_pos f p x = Nat.iter (Pos.to_nat p) f x.
Proof.
  revert x. induction p as [p IH|p IH|]; intros x.
  - rewrite Pos2Nat.inj_xI.
    change (SpecFloat.iter_pos f p~1 x)
      with (SpecFloat.iter_pos f p (SpecFloat.iter_pos f p (f x))).
    rewrite !IH.
    replace (S (2 * Pos.to_nat p))%nat
      with (Pos.to_nat p + (Pos.to_nat p + 1))%nat by lia.
    rewrite !Nat.iter_add. done.
  - rewrite Pos2Nat.inj_xO.
    change (SpecFloat.iter_pos f p~0 x)
      with (SpecFloat.iter_pos f p (SpecFloat.iter_pos f p x)).
    rewrite !IH.
    replace (2 * Pos.to_nat p)%nat with (Pos.to_nat p + Pos.to_nat p)%nat by lia.
    rewrite Nat.iter_add. done.
  - done.
Qed.

Lemma shr_1_nonneg m r s :
  0 <= m ->
  shr_1 (Build_shr_record m r s) = Build_shr_record (m / 2) (Z.odd m) (r || s).
Proof.
  intros Hm. destruct m as [|p|p]; try lia.
  - done.
  - destruct p as [p|p|].
    + replace (Z.pos p~1 / 2) with (Z.pos p); [done|].
      rewrite Pos2Z.inj_xI. apply Z.div_unique with 1; lia.
    + replace (Z.pos p~0 / 2) with (Z.pos p); [done|].
      rewrite Pos2Z.inj_xO. apply Z.div_unique with 0; lia.
    + done.
Qed.

(** [n] successive [shr_1] steps divide by [2^n] and remember the last bit
    shifted out (round bit) and whether anything below it was set (sticky
    bit). *)
Lemma shr_iter m n :
  0 <= m ->
  Nat.iter (S n) shr_1 (Build_shr_record m false false)
  = Build_shr_record (m / 2 ^ (Z.of_nat n + 1))
      (Z.odd (m / 2 ^ Z.of_nat n))
      (negb (m mod 2 ^ Z.of_nat n =? 0)).
Proof.
  intros Hm. induction n as [|n IH].
  - change (Nat.iter 1 shr_1 ?x) with (shr_1 x). rewrite shr_1_nonneg by done.
    change (2 ^ Z.of_nat 0) with 1. change (2 ^ (Z.of_nat 0 + 1)) with 2.
    rewrite Z.div_1_r, Z.mod_1_r. done.
  - change (Nat.iter (S (S n)) shr_1 ?x) with (shr_1 (Nat.iter (S n) shr_1 x)).
    rewrite IH.
    assert (0 < 2 ^ Z.of_nat n) by (apply Z.pow_pos_nonneg; lia).
    assert (Hp : 2 ^ (Z.of_nat n + 1) = 2 ^ Z.of_nat n * 2)
      by (rewrite Z.pow_add_r; lia).
    rewrite shr_1_nonneg by (apply Z.div_pos; lia).
    replace (Z.of_nat (S n)) with (Z.of_nat n + 1) by lia.
    f_equal.
    + rewrite Z.div_div by lia. f_equal.
      rewrite (Z.pow_add_r 2 (Z.of_nat n + 1) 1) by lia. lia.
    + rewrite Hp, Z.rem_mul_r by lia.
      pose proof (Z.mod_pos_bound m (2 ^ Z.of_nat n)).
      rewrite (Zmod_odd (m / 2 ^ Z.of_nat n)).
      destruct (Z.odd (m / 2 ^ Z.of_nat n)); simpl.
      * symmetry. apply negb_true_iff, Z.eqb_neq. lia.
      * f_equal. f_equal. lia.
Qed.

Lemma shr_exact m e k :
  0 <= m -> 0 <= k ->
  shr (Build_shr_record m false false) e k = (shr_rec m k, e + k).
Proof.
  intros Hm Hk. unfold shr, shr_rec. destruct k as [|p|p]; try lia.
  - simpl. f_equal. lia.
  - rewrite iter_pos_nat.
    destruct (Pos2Nat.is_succ p) as [n Hn]. rewrite Hn, shr_iter by done.
    assert (Z.pos p = Z.of_nat n + 1) as -> by lia.
    replace (Z.of_nat n + 1 - 1) with (Z.of_nat n) by lia.
    destruct (Z.eqb_spec (Z.of_nat n + 1) 0); [lia|done].
Qed.

Lemma rne_0 m : rne m 0 = m.
Proof. done. Qed.

(** [rne m k * 2^k] is a multiple of [2^k] next to [m], at distance at most
    half of [2^k]. *)
Lemma rne_near m k :
  0 <= m -> 0 <= k ->
  (rne m k = m / 2 ^ k /\ 2 * (m mod 2 ^ k) <= 2 ^ k) \/
  (rne m k = m / 2 ^ k + 1 /\ 2 ^ k <= 2 * (m mod 2 ^ k)).
Proof.
  intros Hm Hk. unfold rne, shr_rec.
  destruct (Z.eqb_spec k 0) as [->|Hk0].
  - left. simpl. rewrite Z.div_1_r, Z.mod_1_r. lia.
  - assert (Hp : 2 ^ k = 2 ^ (k - 1) * 2).
    { replace k with (Z.succ (k - 1)) at 1 by lia.
      rewrite Z.pow_succ_r by lia. lia. }
    assert (0 < 2 ^ (k - 1)) by (apply Z.pow_pos_nonneg; lia).
    pose proof (Z.mod_pos_bound m (2 ^ (k - 1))).
    assert (Hrem : m mod 2 ^ k
                   = m mod 2 ^ (k - 1)
                     + 2 ^ (k - 1) * (if Z.odd (m / 2 ^ (k - 1)) then 1 else 0)).
    { rewrite Hp, Z.rem_mul_r by lia. f_equal. f_equal. apply Zmod_odd. }
    simpl shr_m.
    destruct (Z.odd (m / 2 ^ (k - 1))) eqn:Hr;
      destruct (Z.eqb_spec (m mod 2 ^ (k - 1)) 0) as [Hs|Hs]; simpl.
    + destruct (Z.even (m / 2 ^ k)); [left|right]; lia.
    + right; lia.
    + left; lia.
    + left; lia.
Qed.

Lemma shr_fexp_exact m e k :
  0 < m -> Zdigits2 m = 53 + k -> 0 <= k -> -1074 <= e + k ->
  shr_fexp prec emax m e loc_Exact = (shr_rec m k, e + k).
Proof.
  intros Hm Hd Hk He. unfold shr_fexp. rewrite Hd.
  unfold fexp, SpecFloat.emin, prec, emax. simpl shr_record_of_loc.
  replace (Z.max (53 + k + e - 53) (3 - 1024 - 53) - e) with k by lia.
  apply shr_exact; lia.
Qed.

Lemma rne_range m k :
  0 < m -> Zdigits2 m = 53 + k -> 0 <= k ->
  2 ^ 52 <= rne m k <= 2 ^ 53.
Proof.
  intros Hm Hd Hk.
  destruct (Zdigits2_bounds m Hm) as [_ Hb]. rewrite Hd in Hb.
  replace (53 + k - 1) with (52 + k) in Hb by lia.
  rewrite !Z.pow_add_r in Hb by lia.
  assert (0 < 2 ^ k) by (apply Z.pow_pos_nonneg; lia).
  assert (2 ^ 52 <= m / 2 ^ k) by (apply Z.div_le_lower_bound; lia).
  assert (m / 2 ^ k < 2 ^ 53) by (apply Z.div_lt_upper_bound; lia).
  destruct (rne_near m k) as [[-> _]|[-> _]]; lia.
Qed.

Lemma shiftl_double a e : Z.shiftl (2 * a) e = Z.shiftl a (e + 1).
Proof.
  replace (2 * a) with (Z.shiftl a 1) by (rewrite Z.shiftl_mul_pow2; lia).
  rewrite Z.shiftl_shiftl by lia. f_equal. lia.
Qed.

(** Rounding an exact positive value [mx * 2^ex] whose mantissa has [53 + k]
    bits: the result is finite, with mantissa [rne mx k] and exponent
    [ex + k], renormalised when the mantissa was rounded up to [2^53]. *)
Lemma binary_round_aux_exact mx ex k :
  0 < mx -> Zdigits2 mx = 53 + k -> 0 <= k ->
  -1074 <= ex + k -> ex + k + 1 <= 971 ->
  exists m' e',
    binary_round_aux prec emax false mx ex loc_Exact = S754_finite false m' e'
    /\ ((Zpos m' = rne mx k /\ e' = ex + k) \/
        (rne mx k = 2 ^ 53 /\ Zpos m' = 2 ^ 52 /\ e' = ex + k + 1)).
Proof.
  intros Hm Hd Hk Hlo Hhi.
  pose proof (rne_range mx k Hm Hd Hk) as Hq.
  unfold binary_round_aux. rewrite (shr_fexp_exact mx ex k) by done.
  fold (rne mx k). set (q := rne mx k) in *.
  destruct (Z.eq_dec q (2 ^ 53)) as [Heq|Hne].
  - rewrite (shr_fexp_exact q (ex + k) 1); [|lia| |lia|lia].
    2:{ rewrite Heq. done. }
    rewrite Heq. simpl shr_m.
    destruct (Z.leb_spec (ex + k + 1) (emax - prec)) as [_|Hbad];
      [|unfold emax, prec in Hbad; lia].
    eexists _, _. split; [reflexivity|]. right. done.
  - rewrite (shr_fexp_exact q (ex + k) 0); [|lia| |lia|lia].
    2:{ apply Zdigits2_unique; [lia|]. change (53 + 0 - 1) with 52.
        change (53 + 0) with 53. lia. }
    unfold shr_rec. simpl shr_m.
    destruct q as [|m'|m'] eqn:Eq; try lia.
    replace (ex + k + 0) with (ex + k) by lia.
    destruct (Z.leb_spec (ex + k) (emax - prec)) as [_|Hbad];
      [|unfold emax, prec in Hbad; lia].
    eexists _, _. split; [reflexivity|]. left. done.
Qed.

Lemma pos_iter_xO p n : Zpos (Pos.iter xO p n) = Zpos p * 2 ^ Zpos n.
Proof.
  induction n as [|n IH] using Pos.peano_ind.
  - simpl. lia.
  - rewrite Pos.iter_succ, Pos2Z.inj_xO, IH, Pos2Z.inj_succ.
    rewrite Z.pow_succ_r by lia. lia.
Qed.

(** Conversion of an integer below [2^53] is exact: the mantissa is the
    integer shifted up to 53 bits. *)
Lemma tofloat_spec n :
  0 < n < 2 ^ 53 ->
  exists (mz : positive) (j : Z),
    0 <= j <= 52 /\ Zpos mz = n * 2 ^ j /\ 2 ^ 52 <= Zpos mz < 2 ^ 53 /\
    Prim2SF (tofloat n) = S754_finite false mz (- j).
Proof.
  intros Hn. unfold tofloat.
  rewrite of_uint63_spec, Uint63.of_Z_spec.
  rewrite Z.mod_small by (change wB with (2 ^ 63); lia).
  destruct n as [|p|p]; try lia.
  destruct (Zdigits2_bounds (Zpos p)) as [Hd0 Hd]; [lia|].
  set (d := Zdigits2 (Zpos p)) in *.
  assert (d <= 53).
  { destruct (Z.le_gt_cases d 53); [done|].
    assert (2 ^ 53 <= 2 ^ (d - 1)) by (apply Z.pow_le_mono_r; lia). lia. }
  unfold binary_normalize, binary_round.
  change (Z.pos (digits2_pos p)) with d.
  unfold fexp, SpecFloat.emin, prec, emax, shl_align.
  replace (Z.max (d + 0 - 53) (3 - 1024 - 53) - 0) with (d - 53) by lia.
  replace (Z.max (d + 0 - 53) (3 - 1024 - 53)) with (d - 53) by lia.
  assert (Hpow : 2 ^ (d - 1) * 2 ^ (53 - d) = 2 ^ 52).
  { rewrite <- Z.pow_add_r by lia. f_equal. lia. }
  assert (Hpow' : 2 ^ d * 2 ^ (53 - d) = 2 ^ 53).
  { rewrite <- Z.pow_add_r by lia. f_equal. lia. }
  assert (0 < 2 ^ (53 - d)) by (apply Z.pow_pos_nonneg; lia).
  assert (Hfin : forall mz : positive,
    Zpos mz = Zpos p * 2 ^ (53 - d) ->
    exists mz' j, 0 <= j <= 52 /\ Zpos mz' = Zpos p * 2 ^ j /\
      2 ^ 52 <= Zpos mz' < 2 ^ 53 /\
      binary_round_aux FloatOps.prec FloatOps.emax false (Zpos mz) (d - 53) loc_Exact
      = S754_finite false mz' (- j)).
  { intros mz Hmz.
    assert (2 ^ 52 <= Zpos mz < 2 ^ 53) by nia.
    destruct (binary_round_aux_exact (Zpos mz) (d - 53) 0)
      as (m' & e' & -> & [[Hm' ->]|[Hc _]]); try lia.
    - apply Zdigits2_unique; [lia|]. change (53 + 0 - 1) with 52.
      change (53 + 0) with 53. lia.
    - rewrite rne_0 in Hm'. exists m', (53 - d).
      split; [lia|]. split; [lia|]. split; [lia|]. f_equal. lia.
    - rewrite rne_0 in Hc. lia. }
  destruct (d - 53) as [|dd|dd] eqn:Edd; try lia.
  - apply Hfin. replace (53 - d) with 0 by lia. lia.
  - apply Hfin. rewrite pos_iter_xO. f_equal. f_equal. lia.
Qed.

Lemma Prim2SF_split_fraction :
  Prim2SF split_fraction = S754_finite false 6305039478318694 (-53).
Proof. vm_compute. reflexivity. Qed.

(** [int(n * 0.7)], computed exactly: with [n * 2^j] the 53-bit mantissa of
    [n], the 105- or 106-bit product [P = n * 2^j * M07] is rounded to
    nearest even at [k] bits and the result is cut at the binary point. *)
Lemma train_size_char n :
  0 < n < 2 ^ 53 ->
  exists j k,
    0 <= j <= 52 /\ (k = 52 \/ k = 53) /\ 2 ^ 52 <= n * 2 ^ j < 2 ^ 53 /\
    train_size n
    = Returned (rne (n * 2 ^ j * M07) k * 2 ^ k / (2 ^ j * 2 ^ 53)).
Proof.
  intros Hn. unfold train_size, int_.
  rewrite FloatAxioms.mul_spec, Prim2SF_split_fraction.
  destruct (tofloat_spec n Hn) as (mz & j & Hj & Hmz & Hr & ->).
  unfold SF64mul, SFmul. simpl xorb.
  rewrite Pos2Z.inj_mul, Hmz. rewrite Hmz in Hr.
  fold M07. set (P := n * 2 ^ j * M07).
  assert (HP : 2 ^ 104 <= P < 2 ^ 106) by (unfold P, M07; lia).
  assert (Hk : exists k, (k = 52 \/ k = 53) /\ Zdigits2 P = 53 + k).
  { destruct (Z.lt_ge_cases P (2 ^ 105)).
    - exists 52. split; [by left|]. apply Zdigits2_unique; [lia|].
      change (53 + 52 - 1) with 104. change (53 + 52) with 105. lia.
    - exists 53. split; [by right|]. apply Zdigits2_unique; [lia|].
      change (53 + 53 - 1) with 105. change (53 + 53) with 106. lia. }
  destruct Hk as (k & Hk & Hd).
  destruct (binary_round_aux_exact P (- j + -53) k)
    as (m' & e' & -> & Hres); [lia|done|lia|lia|lia|].
  exists j, k. split; [done|]. split; [done|]. split; [done|].
  simpl cond_Zopp. f_equal.
  assert (Hsh : Z.shiftl (Z.pos m') e' = Z.shiftl (rne P k) (- j + -53 + k)).
  { destruct Hres as [[-> ->]|(Hc & Hm' & ->)]; [done|].
    rewrite Hc, Hm'. change (2 ^ 53) with (2 * 2 ^ 52).
    rewrite shiftl_double. done. }
  rewrite Hsh.
  replace (- j + -53 + k) with (- (j + 53 - k)) by lia.
  rewrite Z.shiftl_opp_r, Z.shiftr_div_pow2 by lia.
  assert (0 < 2 ^ k) by (apply Z.pow_pos_nonneg; lia).
  assert (0 < 2 ^ (j + 53 - k)) by (apply Z.pow_pos_nonneg; lia).
  replace (2 ^ j * 2 ^ 53) with (2 ^ (j + 53 - k) * 2 ^ k).
  - rewrite Z.div_mul_cancel_r by lia. done.
  - rewrite <- !Z.pow_add_r by lia. f_equal. lia.
Qed.

(** Rounding [P] to a neighbouring multiple [R] of [K], at distance at most
    [K/2], and then taking the floor of [R / (K * C)]: how the result
    compares with an integer [q]. *)
Lemma rounded_floor P K C R q :
  0 < K -> 0 < C ->
  (R = P / K * K /\ 2 * (P mod K) <= K) \/
  (R = P / K * K + K /\ K <= 2 * (P mod K)) ->
  (q * (K * C) <= P -> q <= R / (K * C)) /\
  (2 * P + K < 2 * ((q + 1) * (K * C)) -> R / (K * C) <= q).
Proof.
  intros HK HC HR.
  pose proof (Z.div_mod P K ltac:(lia)) as HP.
  pose proof (Z.mod_pos_bound P K HK) as Hm.
  split; intros Hq.
  - apply Z.div_le_lower_bound; [lia|].
    assert (q * C <= P / K) by (apply Z.div_le_lower_bound; lia).
    assert (K * (q * C) <= K * (P / K)) by (apply Z.mul_le_mono_nonneg_l; lia).
    lia.
  - apply Z.lt_succ_r, Z.div_lt_upper_bound; lia.
Qed.

(** For fewer than [2^50] rows the training size is [floor(7n/10)], except
    that it may be one less when [n] is a multiple of 10 (the exact product
    then lies just below an integer and may be rounded further down). *)
Lemma train_size_bounds n :
  0 <= n < 2 ^ 50 ->
  exists t, train_size n = Returned t /\
    7 * n / 10 - 1 <= t <= 7 * n / 10 /\
    (n mod 10 <> 0 -> t = 7 * n / 10).
Proof.
  intros Hn. destruct (Z.eq_dec n 0) as [->|Hn0].
  { exists 0. split; [vm_compute; reflexivity|]. done. }
  destruct (train_size_char n) as (j & k & Hj & Hk & Ha & ->); [lia|].
  eexists. split; [reflexivity|].
  set (J := 2 ^ j) in *. set (a := n * J) in *.
  assert (HJ : 4 < J) by (unfold a in Ha; nia).
  replace (a * M07) with (M07 * a) by lia. unfold M07.
  set (P := 6305039478318694 * a).
  set (q0 := 7 * n / 10). set (u := q0 * J).
  (* 7 n = 10 q0 + t, scaled by J: 7 a = 10 u + t J *)
  pose proof (Z.div_mod (7 * n) 10 ltac:(lia)) as Hdm.
  pose proof (Z.mod_pos_bound (7 * n) 10 ltac:(lia)) as Ht.
  fold q0 in Hdm. set (t := (7 * n) mod 10) in *.
  assert (Hu : 7 * a = 10 * u + t * J) by (unfold a, u; nia).
  assert (Hn4 : 4 * a <= 9007199254740992 * J) by (unfold a; nia).
  assert (Ht0 : n mod 10 <> 0 -> t <> 0).
  { intros Hne Ht'. apply Hne.
    pose proof (Z.div_mod n 10 ltac:(lia)).
    pose proof (Z.mod_pos_bound n 10 ltac:(lia)). lia. }
  assert (HtJ : 0 <= t * J <= 9 * J) by nia.
  assert (HtJ' : t <> 0 -> J <= t * J) by nia.
  generalize dependent (t * J). intros tJ Hu HtJ HtJ'.
  (* the rounded product, a multiple of K = 2^k next to P *)
  set (K := 2 ^ k). set (R := rne P k * K).
  assert (HK : K = 2 ^ 52 \/ K = 2 ^ 53) by (unfold K; destruct Hk as [-> | ->]; auto).
  assert (HR : (R = P / K * K /\ 2 * (P mod K) <= K) \/
               (R = P / K * K + K /\ K <= 2 * (P mod K))).
  { unfold R, K. destruct (rne_near P k) as [[-> ?]|[-> ?]]; [lia|lia| |].
    - by left.
    - right. split; [lia|done]. }
  assert (HC : exists C, 0 < C /\ J * 2 ^ 53 = K * C /\ 5 * K <= K * C).
  { destruct HK as [-> | ->]; [exists (2 * J)|exists J]; lia. }
  destruct HC as (C & HC & HJC & HKC). rewrite HJC.
  clearbody R K. unfold P in *. clear P.
  assert (Hu53 : forall q, q * (K * C) = q * J * 2 ^ 53).
  { intros q. rewrite <- HJC. ring. }
  pose proof (Hu53 q0) as Hq0. pose proof (Hu53 (q0 - 1)) as Hq1.
  pose proof (Hu53 (q0 + 1)) as Hq2.
  replace (q0 * J) with u in Hq0 by done.
  replace ((q0 - 1) * J) with (u - J) in Hq1 by (unfold u; lia).
  replace ((q0 + 1) * J) with (u + J) in Hq2 by (unfold u; lia).
  destruct (rounded_floor (6305039478318694 * a) K C R (q0 - 1) ltac:(lia) HC HR)
    as [Hlow1 _].
  destruct (rounded_floor (6305039478318694 * a) K C R q0 ltac:(lia) HC HR)
    as [Hlow0 Hup].
  assert (HKpos : 0 < K <= 2 ^ 53) by (destruct HK as [-> | ->]; lia).
  split; [split|].
  - apply Hlow1. lia.
  - apply Hup. lia.
  - intros Hne. specialize (Ht0 Hne). apply Z.le_antisymm.
    + apply Hup. lia.
    + apply Hlow0. lia.
Qed.

Lemma train_size_0 : train_size 0 = Returned 0.
Proof. vm_compute. reflexivity. Qed.

Lemma train_size_range n t :
  0 <= n < 2 ^ 50 -> train_size n = Returned t -> 0 <= t <= n.
Proof.
  intros Hn Ht. destruct (Z.eq_dec n 0) as [->|Hn0].
  { rewrite train_size_0 in Ht. injection Ht as <-. lia. }
  destruct (train_size_bounds n Hn) as (t' & Ht' & Hb & Hne).
  rewrite Ht in Ht'. injection Ht' as <-.
  pose proof (Z.div_mod n 10 ltac:(lia)).
  pose proof (Z.mod_pos_bound n 10 ltac:(lia)).
  pose proof (Z.div_mod (7 * n) 10 ltac:(lia)).
  pose proof (Z.mod_pos_bound (7 * n) 10 ltac:(lia)).
  destruct (Z.eq_dec (n mod 10) 0) as [Hz|Hz]; [|specialize (Hne Hz)]; lia.
Qed.

(** *** Signs and zeros of quotients and sums *)

Lemma binary_round_aux_nonneg mx ex lx :
  sf_nonneg (binary_round_aux prec emax false mx ex lx).
Proof.
  unfold binary_round_aux.
  destruct (shr_fexp prec emax mx ex lx) as [mrs e].
  destruct (shr_fexp prec emax _ e loc_Exact) as [mrs' e'].
  destruct (shr_m mrs'); simpl; [done| |done].
  by destruct (e' <=? emax - prec).
Qed.

Lemma binary_round_nonneg m e : sf_nonneg (binary_round prec emax false m e).
Proof.
  unfold binary_round. destruct (shl_align _ _ _) as [mz ez].
  apply binary_round_aux_nonneg.
Qed.

Lemma tofloat_nonneg z : sf_nonneg (Prim2SF (tofloat z)).
Proof.
  unfold tofloat. rewrite of_uint63_spec.
  pose proof (Uint63.to_Z_bounded (Uint63.of_Z z)) as Hb.
  destruct (Uint63.to_Z (Uint63.of_Z z)) as [|p|p]; [done| |lia].
  apply binary_round_nonneg.
Qed.

Lemma div_nonneg x y :
  sf_nonneg (Prim2SF x) -> sf_nonneg (Prim2SF y) ->
  sf_nonneg (Prim2SF (x / y)%float).
Proof.
  rewrite FloatAxioms.div_spec. unfold SF64div, SFdiv.
  destruct (Prim2SF x) as [[]|[]| |[] mx ex];
    destruct (Prim2SF y) as [[]|[]| |[] my ey]; simpl; try done.
  intros _ _. destruct (SFdiv_core_binary _ _ _ _ _ _) as [[mz ez] lz].
  apply binary_round_aux_nonneg.
Qed.

(** Without a shift nothing is lost. *)
Lemma shr_fexp_noshift m e :
  0 < m -> Zdigits2 m <= 53 -> -1074 <= e ->
  shr_fexp prec emax m e loc_Exact = (Build_shr_record m false false, e).
Proof.
  intros Hm Hd He. unfold shr_fexp, shr. simpl shr_record_of_loc.
  destruct (fexp prec emax (Zdigits2 m + e) - e) as [|p|p] eqn:E; try done.
  unfold fexp, SpecFloat.emin, prec, emax in E. lia.
Qed.

(** Rounding an exact positive value whose exponent is not below the
    smallest one never gives a zero. *)
Lemma binary_round_aux_nonzero sx mx ex :
  0 < mx -> -1074 <= ex ->
  sf_nonzero (binary_round_aux prec emax sx mx ex loc_Exact).
Proof.
  intros Hm He. unfold binary_round_aux.
  destruct (Z.le_gt_cases (Zdigits2 mx) 53) as [Hd|Hd].
  - rewrite (shr_fexp_noshift mx ex) by done. simpl.
    rewrite (shr_fexp_noshift mx ex) by done. simpl.
    destruct mx as [|p|p]; try lia. by destruct (ex <=? emax - prec).
  - set (k := Zdigits2 mx - 53).
    assert (Hk : Zdigits2 mx = 53 + k) by lia.
    rewrite (shr_fexp_exact mx ex k) by lia. fold (rne mx k).
    pose proof (rne_range mx k Hm Hk ltac:(lia)) as Hq.
    set (q := rne mx k) in *.
    destruct (Z.eq_dec q (2 ^ 53)) as [Heq|Hne].
    + rewrite (shr_fexp_exact q (ex + k) 1); [|lia| |lia|lia].
      2:{ rewrite Heq. done. }
      rewrite Heq. simpl shr_m. by destruct (ex + k + 1 <=? emax - prec).
    + rewrite (shr_fexp_noshift q (ex + k)); [|lia| |lia].
      2:{ rewrite (Zdigits2_unique q 53); [lia|lia|].
          change (53 - 1) with 52. lia. }
      simpl. destruct q as [|p|p]; try lia.
      by destruct (ex + k <=? emax - prec).
Qed.

Lemma binary_round_nonzero sx m e :
  -1074 <= e -> sf_nonzero (binary_round prec emax sx m e).
Proof.
  intros He. unfold binary_round, shl_align.
  set (fe := fexp prec emax (Z.pos (digits2_pos m) + e)).
  assert (-1074 <= fe) by (unfold fe, fexp, SpecFloat.emin, prec, emax; lia).
  destruct (fe - e); apply binary_round_aux_nonzero; lia.
Qed.

(** The exponent of a finite float is at least the smallest one. *)
Lemma finite_exponent_bound x s m e :
  Prim2SF x = S754_finite s m e -> -1074 <= e.
Proof.
  intros Hx. pose proof (Prim2SF_valid x) as Hv. rewrite Hx in Hv.
  unfold SpecFloat.valid_binary, bounded, canonical_mantissa in Hv.
  apply andb_prop in Hv as [Hc _]. apply Z.eqb_eq in Hc.
  unfold fexp, SpecFloat.emin, prec, emax in Hc. lia.
Qed.

Lemma nonneg_nonzero_not_zero r :
  sf_nonneg r -> sf_nonzero r -> SFeqb r (S754_zero false) = false.
Proof. by destruct r as [[]|[]| |[] m e]. Qed.

(** Two floats that are not negative add up to zero only if both are
    [+0]. *)
Lemma add_zero_inv x y :
  sf_nonneg (Prim2SF x) -> sf_nonneg (Prim2SF y) ->
  (x + y =? 0)%float = true -> x = 0%float /\ y = 0%float.
Proof.
  intros Hx Hy. rewrite FloatAxioms.eqb_spec, FloatAxioms.add_spec.
  change (Prim2SF 0) with (S754_zero false).
  pose proof (finite_exponent_bound x) as Hex.
  pose proof (finite_exponent_bound y) as Hey.
  assert (Hz : forall z, Prim2SF z = S754_zero false -> z = 0%float).
  { intros z Hz. apply Prim2SF_inj. by rewrite Hz. }
  destruct (Prim2SF x) as [[]|[]| |[] mx ex] eqn:Ex; try done;
    destruct (Prim2SF y) as [[]|[]| |[] my ey] eqn:Ey; try done.
  - intros _. split; by apply Hz.
  - unfold SF64add, SFadd. intros Hs. exfalso.
    specialize (Hex _ _ _ eq_refl). specialize (Hey _ _ _ eq_refl).
    revert Hs. cbn [cond_Zopp Z.add]. unfold binary_normalize.
    rewrite nonneg_nonzero_not_zero; [done| |].
    + apply binary_round_nonneg.
    + apply binary_round_nonzero. lia.
Qed.

End Rounding.


(** ** Outcomes *)

Lemma bind_Returned_inv {A B} (c : outcome A) (k : A -> outcome B) b :
  c ≫= k = Returned b -> exists a, c = Returned a /\ k a = Returned b.
Proof. destruct c as [a|e]; [by exists a|done]. Qed.

Lemma bind_Returned {A B} (a : A) (k : A -> outcome B) :
  Returned a ≫= k = k a.
Proof. reflexivity. Qed.

Lemma fmap_Returned_inv {A B} (f : A -> B) (c : outcome A) b :
  f <$> c = Returned b -> exists a, c = Returned a /\ b = f a.
Proof. destruct c as [a|e]; [|done]. intros [= <-]. by exists a. Qed.

(** ** The shuffle *)

Section ShuffleFacts.
Context {rng : Type}.
Variable random_interval : rng -> nat -> nat * rng.

(** Exchanging two rows rearranges the array. *)
Lemma swap_rows_perm {B} (x : list B) i j : swap_rows x i j ≡ₚ x.
Proof.
  unfold swap_rows. case_decide as Hij; [done|].
  destruct (x !! i) as [xi|] eqn:Hi; [|done].
  destruct (x !! j) as [xj|] eqn:Hj; [|done].
  pose proof (lookup_lt_Some _ _ _ Hi). pose proof (lookup_lt_Some _ _ _ Hj).
  apply Permutation_inj. split; [by rewrite !length_insert|].
  exists (fun k => if decide (k = i) then j else if decide (k = j) then i else k).
  split.
  - intros a b. repeat case_decide; lia.
  - intros k. repeat case_decide; subst.
    + rewrite list_lookup_insert_eq by (by rewrite length_insert). done.
    + rewrite list_lookup_insert_ne by done.
      rewrite list_lookup_insert_eq by done. done.
    + rewrite !list_lookup_insert_ne by done. done.
Qed.

(** The exchange does not look at the rows: related arrays stay related. *)
Lemma swap_rows_Forall2 {B C} (R : B -> C -> Prop) x y i j :
  Forall2 R x y -> Forall2 R (swap_rows x i j) (swap_rows y i j).
Proof.
  intros H. unfold swap_rows. case_decide; [done|].
  destruct (x !! i) as [xi|] eqn:Hxi.
  - destruct (Forall2_lookup_l _ _ _ _ _ H Hxi) as (yi & -> & Hi).
    destruct (x !! j) as [xj|] eqn:Hxj.
    + destruct (Forall2_lookup_l _ _ _ _ _ H Hxj) as (yj & -> & Hj).
      by repeat apply Forall2_insert.
    + apply lookup_ge_None in Hxj. rewrite (Forall2_length _ _ _ H) in Hxj.
      apply lookup_ge_None in Hxj. by rewrite Hxj.
  - apply lookup_ge_None in Hxi. rewrite (Forall2_length _ _ _ H) in Hxi.
    apply lookup_ge_None in Hxi. by rewrite Hxi.
Qed.

Lemma shuffle_loop_perm {B} i (x : list B) g :
  (shuffle_loop random_interval i x g).1 ≡ₚ x.
Proof.
  revert x g. induction i as [|i IH]; intros x g; simpl; [done|].
  destruct (random_interval g (S i)) as [j g'].
  rewrite IH. apply swap_rows_perm.
Qed.

Lemma shuffle_loop_Forall2 {B C} (R : B -> C -> Prop) i x y g :
  Forall2 R x y ->
  Forall2 R (shuffle_loop random_interval i x g).1
            (shuffle_loop random_interval i y g).1 /\
  (shuffle_loop random_interval i x g).2 = (shuffle_loop random_interval i y g).2.
Proof.
  revert x y g. induction i as [|i IH]; intros x y g H; simpl; [done|].
  destruct (random_interval g (S i)) as [j g'].
  apply IH. by apply swap_rows_Forall2.
Qed.

Lemma shuffle_perm {B} (x : list B) g : (shuffle random_interval x g).1 ≡ₚ x.
Proof. apply shuffle_loop_perm. Qed.

Lemma shuffle_length {B} (x : list B) g :
  length (shuffle random_interval x g).1 = length x.
Proof. apply Permutation_length, shuffle_perm. Qed.

(** Row [p] of the shuffled array is the row of the input whose position is
    entry [p] of the shuffled list of positions: the draws depend on the
    length of the array only. *)
Lemma shuffle_by_positions {B} (x : list B) g :
  Forall2 (fun y i => x !! i = Some y)
    (shuffle random_interval x g).1
    (shuffle random_interval (seq 0 (length x)) g).1 /\
  (shuffle random_interval x g).2
  = (shuffle random_interval (seq 0 (length x)) g).2.
Proof.
  unfold shuffle. rewrite length_seq. apply shuffle_loop_Forall2.
  apply Forall2_same_length_lookup. split; [by rewrite length_seq|].
  intros i y k Hy Hk. apply lookup_seq in Hk as [-> _]. done.
Qed.

End ShuffleFacts.

(** ** The split *)

Section SplitterFacts.
Context {A : Type} {rng : Type}.
Variable seed_state : Z -> rng.
Variable random_interval : rng -> nat -> nat * rng.

Local Abbreviation split := (split (A:=A) seed_state random_interval).
Local Abbreviation shuffled_positions :=
  (shuffled_positions seed_state random_interval).

Lemma last_column_inv nc (rs : list (list A)) c :
  last_column nc rs = Returned c -> Forall2 (fun r l => last r = Some l) rs c.
Proof.
  unfold last_column. case_decide; [done|].
  destruct (mapM last rs) as [c'|] eqn:E; [|done].
  intros [= <-]. by apply mapM_Some.
Qed.

Lemma last_column_returns nc (rs : list (list A)) :
  nc <> 0 -> Forall (fun r => length r = nc) rs ->
  exists c, last_column nc rs = Returned c.
Proof.
  intros Hnc Hwf. unfold last_column. case_decide; [done|].
  assert (Hsome : is_Some (mapM last rs)).
  { apply mapM_is_Some. eapply Forall_impl; [exact Hwf|].
    intros r Hr. simpl in *.
    destruct r as [|a r _] using rev_ind; [simpl in Hr; lia|].
    rewrite last_snoc. by eexists. }
  destruct Hsome as [c ->]. by eexists.
Qed.

(** What a returned split consists of. *)
Lemma split_inv seed d g s :
  (split seed d g).1 = Returned s ->
  exists k : Z,
    let shuffled := (shuffle random_interval (rows d) (seed_state seed)).1 in
    train_size (Z.of_nat (length (rows d))) = Returned k /\
    train_features s = all_but_last_column (slice_to k shuffled) /\
    last_column (ncols d) (slice_to k shuffled) = Returned (train_labels s) /\
    test_features s = all_but_last_column (slice_from k shuffled) /\
    last_column (ncols d) (slice_from k shuffled) = Returned (test_labels s).
Proof.
  unfold split.
  pose proof (shuffle_length random_interval (rows d) (seed_state seed)) as Hlen.
  destruct (shuffle random_interval (rows d) (seed_state seed)) as [sh g'].
  simpl in Hlen. rewrite Hlen. cbn [fst].
  intros H.
  apply bind_Returned_inv in H as (k & Hk & H).
  apply bind_Returned_inv in H as (trl & Htr & H).
  apply bind_Returned_inv in H as (tel & Hte & H).
  injection H as <-. exists k. done.
Qed.

(** Features and labels cut from rows that sit at known positions of the
    dataset are the features and labels of the records at those positions. *)
Lemma drawn_from_rows d (rs : list (list A)) idx ls :
  Forall2 (fun r i => rows d !! i = Some r) rs idx ->
  Forall2 (fun r l => last r = Some l) rs ls ->
  drawn_from d (all_but_last_column rs) ls idx.
Proof.
  intros Hidx Hls. split.
  - unfold all_but_last_column. apply Forall2_fmap_l.
    eapply Forall2_impl; [exact Hidx|]. intros r i Hr. simpl in *. eauto.
  - revert ls Hls. induction Hidx as [|r i rs idx Hr _ IH]; intros ls Hls.
    + inversion Hls. constructor.
    + inversion Hls as [|? l ? ls' Hl Hls']; subst. constructor; [eauto|].
      by apply IH.
Qed.

(** Feature rows and labels cut from the same rows give the rows back. *)
Lemma records_rebuild (rs : list (list A)) ls :
  Forall2 (fun r l => last r = Some l) rs ls ->
  records (all_but_last_column rs) ls = rs.
Proof.
  induction 1 as [|r l rs ls Hl _ IH]; [done|].
  unfold records, all_but_last_column in *. cbn [map zip_with].
  rewrite IH. f_equal.
  apply last_Some in Hl as [r' ->].
  unfold slice_to, slice_index. rewrite length_app. cbn [length].
  destruct (Z.ltb_spec (-1) 0); [|lia].
  replace (Z.to_nat (Z.of_nat (length r' + 1) + -1)) with (length r') by lia.
  by rewrite take_app_length.
Qed.

(** The records of the two subsets of a returned split, put together again,
    are a rearrangement of the rows of the dataset. *)
Lemma split_records seed d g s :
  (split seed d g).1 = Returned s ->
  records (train_features s) (train_labels s)
  ++ records (test_features s) (test_labels s) ≡ₚ rows d.
Proof.
  intros Hs. destruct (split_inv _ _ _ _ Hs) as (k & _ & -> & Htr & -> & Hte).
  apply last_column_inv in Htr, Hte.
  rewrite (records_rebuild _ _ Htr), (records_rebuild _ _ Hte).
  unfold slice_to, slice_from. rewrite take_drop. apply shuffle_perm.
Qed.

Lemma shuffled_positions_perm seed n : shuffled_positions seed n ≡ₚ seq 0 n.
Proof. apply shuffle_perm. Qed.

(** The two subsets of a returned split are cut from the dataset along the
    shuffled positions, the first [k] for training and the rest for test. *)
Lemma split_drawn seed d g s :
  (split seed d g).1 = Returned s ->
  exists k : Z,
    train_size (Z.of_nat (length (rows d))) = Returned k /\
    drawn_from d (train_features s) (train_labels s)
      (slice_to k (shuffled_positions seed (length (rows d)))) /\
    drawn_from d (test_features s) (test_labels s)
      (slice_from k (shuffled_positions seed (length (rows d)))).
Proof.
  intros Hs. destruct (split_inv _ _ _ _ Hs) as (k & Hk & -> & Htr & -> & Hte).
  exists k. split; [done|].
  destruct (shuffle_by_positions random_interval (rows d) (seed_state seed))
    as [Hpos _].
  pose proof (Forall2_length _ _ _ Hpos) as Hlen.
  split; apply drawn_from_rows.
  - unfold slice_to. rewrite Hlen. by apply Forall2_take.
  - by apply last_column_inv in Htr.
  - unfold slice_from. rewrite Hlen. by apply Forall2_drop.
  - by apply last_column_inv in Hte.
Qed.

Lemma drawn_from_lengths (d : ndarray2 A) fs ls idx :
  drawn_from d fs ls idx -> length fs = length idx /\ length ls = length idx.
Proof. intros [H1 H2]. split; eapply Forall2_length; eauto. Qed.

Lemma drawn_from_lookup (d : ndarray2 A) fs ls idx p f l :
  drawn_from d fs ls idx -> fs !! p = Some f -> ls !! p = Some l ->
  exists i r, idx !! p = Some i /\ rows d !! i = Some r /\
              f = slice_to (-1) r /\ last r = Some l.
Proof.
  intros [H1 H2] Hf Hl.
  destruct (Forall2_lookup_l _ _ _ _ _ H1 Hf) as (i & Hi & r & Hr & ->).
  destruct (Forall2_lookup_l _ _ _ _ _ H2 Hl) as (i' & Hi' & r' & Hr' & Hlast).
  assert (i' = i) as -> by congruence.
  assert (r' = r) as -> by congruence.
  exists i, r. done.
Qed.

End SplitterFacts.

Section SplitterTheorems.
Context {A : Type} {rng : Type}.
Variable seed_state : Z -> rng.
Variable random_interval : rng -> nat -> nat * rng.

Local Abbreviation split := (split (A:=A) seed_state random_interval).
Local Abbreviation shuffled_positions :=
  (shuffled_positions seed_state random_interval).

Lemma split_returns seed (d : ndarray2 A) g k :
  wf d -> ncols d <> 0 ->
  train_size (Z.of_nat (length (rows d))) = Returned k ->
  exists s, (split seed d g).1 = Returned s.
Proof.
  intros Hwf Hnc Hk. unfold split.
  pose proof (shuffle_length random_interval (rows d) (seed_state seed)) as Hlen.
  pose proof (shuffle_perm random_interval (rows d) (seed_state seed)) as Hperm.
  destruct (shuffle random_interval (rows d) (seed_state seed)) as [sh g'].
  simpl in Hlen, Hperm. rewrite Hlen, Hk. cbn [fst].
  assert (Hsh : Forall (fun r => length r = ncols d) sh).
  { eapply Permutation_Forall; [symmetry; exact Hperm|exact Hwf]. }
  destruct (last_column_returns (ncols d) (slice_to k sh)) as [trl Htr];
    [done|by apply Forall_take|].
  destruct (last_column_returns (ncols d) (slice_from k sh)) as [tel Hte];
    [done|by apply Forall_drop|].
  rewrite bind_Returned, Htr, bind_Returned, Hte, bind_Returned.
  by eexists.
Qed.

(** C4. Running the cell twice with the same seed on the same dataset gives
    the same outcome, training and test subsets included, and leaves the
    generator in the same state, whatever state the generator was in when
    each run started (fresh, or as left by an earlier run):
    [np.random.seed] overwrites it.  The dataset need not be non-empty. *)
Theorem split_deterministic seed (d : ndarray2 A) g1 g2 :
  split seed d g1 = split seed d g2 /\
  (shuffle random_interval (rows d) (seed_state seed)).1
  ≡ₚ rows d /\
  forall s, (split seed d g1).1 = Returned s ->
    exists k : Z,
      drawn_from d (train_features s) (train_labels s)
        (slice_to k (shuffled_positions seed (length (rows d)))) /\
      drawn_from d (test_features s) (test_labels s)
        (slice_from k (shuffled_positions seed (length (rows d)))).
Proof.
  split; [reflexivity|]. split; [apply shuffle_perm|].
  intros s Hs. destruct (split_drawn _ _ _ _ _ _ Hs) as (k & _ & Htr & Hte).
  by exists k.
Qed.

(** C9. In a returned split every label stays with its feature row: the
    label at a position of a subset and the feature row at that position
    are the last entry and the remaining entries of one and the same row of
    the original dataset; features and labels of a subset have the same
    length; and every row of the dataset is found again, label attached,
    in one of the two subsets. *)
Theorem split_keeps_label_with_features seed (d : ndarray2 A) g s :
  (split seed d g).1 = Returned s ->
  paired_with d (train_features s) (train_labels s) /\
  paired_with d (test_features s) (test_labels s) /\
  records (train_features s) (train_labels s)
  ++ records (test_features s) (test_labels s) ≡ₚ rows d.
Proof.
  intros Hs. destruct (split_drawn _ _ _ _ _ _ Hs) as (k & _ & Htr & Hte).
  split; [|split; [|by eapply split_records]].
  - split.
    + destruct (drawn_from_lengths _ _ _ _ Htr). congruence.
    + intros p f l Hf Hl.
      destruct (drawn_from_lookup _ _ _ _ _ _ _ Htr Hf Hl) as (i & r & _ & ?).
      by exists i, r.
  - split.
    + destruct (drawn_from_lengths _ _ _ _ Hte). congruence.
    + intros p f l Hf Hl.
      destruct (drawn_from_lookup _ _ _ _ _ _ _ Hte Hf Hl) as (i & r & _ & ?).
      by exists i, r.
Qed.

(** C1 (amended). For a well-formed dataset of [n < 2^50] records with at
    least one column the cell returns a split whose training subset has
    [int(n * 0.7)] records, the product taken in binary64: that is
    [floor(7n/10)] when [n] is not a multiple of 10, and [floor(7n/10)] or
    one less when it is.  The test subset has the remaining records.  The
    subsets are the records at two lists of positions [tr] and [te] that
    share no position and together are a rearrangement of all positions
    [0 .. n-1]; put together again, the records of the two subsets are a
    rearrangement of the rows of the dataset. *)
Theorem split_sizes_and_partition seed (d : ndarray2 A) g :
  let n := length (rows d) in
  wf d -> ncols d <> 0 -> (Z.of_nat n < 2 ^ 50)%Z ->
  exists s (tr te : list nat),
    (split seed d g).1 = Returned s /\
    train_size (Z.of_nat n) = Returned (Z.of_nat (length tr)) /\
    (7 * Z.of_nat n / 10 - 1 <= Z.of_nat (length tr) <= 7 * Z.of_nat n / 10)%Z /\
    ((Z.of_nat n mod 10)%Z <> 0%Z ->
       Z.of_nat (length tr) = (7 * Z.of_nat n / 10)%Z) /\
    length (train_features s) = length tr /\
    length (train_labels s) = length tr /\
    length (test_features s) = n - length tr /\
    length (test_labels s) = n - length tr /\
    tr ++ te ≡ₚ seq 0 n /\
    (forall i, i ∈ tr -> i ∉ te) /\
    drawn_from d (train_features s) (train_labels s) tr /\
    drawn_from d (test_features s) (test_labels s) te /\
    records (train_features s) (train_labels s)
    ++ records (test_features s) (test_labels s) ≡ₚ rows d.
Proof.
  intros n Hwf Hnc Hn.
  destruct (train_size_bounds (Z.of_nat n)) as (k & Hk & Hb & Hne); [lia|].
  assert (Hr : (0 <= k <= Z.of_nat n)%Z)
    by (apply train_size_range; [lia|done]).
  destruct (split_returns seed d g k Hwf Hnc Hk) as [s Hs].
  destruct (split_drawn _ _ _ _ _ _ Hs) as (k' & Hk' & Htr & Hte).
  fold n in Hk'. rewrite Hk in Hk'. injection Hk' as <-.
  set (pi := shuffled_positions seed (length (rows d))) in *.
  assert (Hpi : pi ≡ₚ seq 0 n) by apply shuffled_positions_perm.
  assert (Hlen : length pi = n) by (by rewrite Hpi, length_seq).
  assert (Hidx : slice_index k (length pi) = Z.to_nat k).
  { unfold slice_index. destruct (Z.ltb_spec k 0); [lia|done]. }
  assert (Htrlen : length (slice_to k pi) = Z.to_nat k).
  { unfold slice_to. rewrite Hidx, length_take. lia. }
  assert (Htelen : length (slice_from k pi) = n - Z.to_nat k).
  { unfold slice_from. rewrite Hidx, length_drop. lia. }
  destruct (drawn_from_lengths _ _ _ _ Htr) as [Ha Hb'].
  destruct (drawn_from_lengths _ _ _ _ Hte) as [Hc Hd].
  exists s, (slice_to k pi), (slice_from k pi).
  rewrite Htrlen, Z2Nat.id by lia.
  split; [done|]. split; [done|]. split; [done|]. split; [done|].
  split; [congruence|]. split; [congruence|].
  split; [congruence|]. split; [congruence|].
  assert (Hcat : slice_to k pi ++ slice_from k pi = pi) by apply take_drop.
  split; [by rewrite Hcat|].
  split; [|split; [done|split; [done|by eapply split_records]]].
  assert (Hnd : NoDup (slice_to k pi ++ slice_from k pi)).
  { rewrite Hcat, Hpi. apply NoDup_seq. }
  apply NoDup_app in Hnd as (_ & Hdisj & _). exact Hdisj.
Qed.

(** C6 (amended). The cell validates nothing.  Its split fraction is the
    constant [0.7], strictly between 0 and 1, and is not an input; and on a
    dataset without rows (with at least one column) it returns four empty
    arrays instead of failing. *)
Theorem split_accepts_empty seed (nc : nat) g :
  nc <> 0 ->
  (0 <? split_fraction)%float = true /\
  (split_fraction <? 1)%float = true /\
  (split seed {| ncols := nc; rows := [] |} g).1
  = Returned {| train_features := []; train_labels := [];
                test_features := []; test_labels := [] |}.
Proof.
  intros Hnc. split; [reflexivity|]. split; [reflexivity|].
  unfold split, shuffle. cbn [rows ncols length shuffle_loop Nat.sub fst].
  change (Z.of_nat 0) with 0%Z. rewrite train_size_0, bind_Returned.
  unfold last_column. case_decide; [done|]. reflexivity.
Qed.

End SplitterTheorems.

(** ** Chunking the test set *)

Section Chunks.
Context {B : Type}.

Lemma concat_reshape_take sizes (l : list B) :
  concat (reshape sizes l) = take (sum_list sizes) l.
Proof.
  revert l. induction sizes as [|n sizes IH]; intros l; simpl.
  - by rewrite take_0.
  - rewrite IH, take_drop_commute.
    etrans; [|apply (take_drop n)].
    f_equal. rewrite take_take. f_equal. lia.
Qed.

(** Slicing between successive running totals gives the consecutive
    pieces. *)
Lemma slices_reshape acc sizes (l : list B) :
  map (fun i =>
         let st := (acc :: cumsum_from acc sizes) !!! i in
         let end_ := (acc :: cumsum_from acc sizes) !!! (i + 1) in
         take (end_ - st) (drop st l))
      (seq 0 (length sizes))
  = reshape sizes (drop acc l).
Proof.
  revert acc. induction sizes as [|n sizes IH]; intros acc; [done|].
  cbn [length seq map reshape cumsum_from].
  f_equal.
  - simpl. f_equal. lia.
  - rewrite <- fmap_S_seq, <- list_fmap_compose, drop_drop.
    rewrite <- IH. apply list_fmap_ext. intros _ i _. simpl.
    replace (i + 1) with (S i) by lia. done.
Qed.

Lemma section_sizes_spec Ntotal Nsections :
  Nsections <> 0 ->
  exists sizes,
    section_sizes Ntotal Nsections = 0 :: sizes /\
    length sizes = Nsections /\ sum_list sizes = Ntotal.
Proof.
  intros HN. unfold section_sizes. eexists. split; [reflexivity|].
  pose proof (Nat.mod_upper_bound Ntotal Nsections HN).
  pose proof (Nat.div_mod_eq Ntotal Nsections).
  split.
  - rewrite length_app, !length_replicate. lia.
  - rewrite sum_list_with_app, !sum_list_replicate. nia.
Qed.

Lemma array_split_reshape (ary : list B) Nsections :
  Nsections <> 0 ->
  exists sizes,
    length sizes = Nsections /\ sum_list sizes = length ary /\
    array_split ary Nsections = reshape sizes ary.
Proof.
  intros HN.
  destruct (section_sizes_spec (length ary) Nsections HN)
    as (sizes & Hs & Hlen & Hsum).
  exists sizes. split; [done|]. split; [done|].
  unfold array_split, cumsum. rewrite Hs. cbn [cumsum_from].
  change (0 + 0) with 0. subst Nsections.
  exact (slices_reshape 0 sizes ary).
Qed.

(** [np.array_split] cuts the rows into consecutive batches: put end to
    end, the batches are the array. *)
Lemma concat_array_split (ary : list B) Nsections :
  Nsections <> 0 -> concat (array_split ary Nsections) = ary.
Proof.
  intros HN.
  destruct (array_split_reshape ary Nsections HN) as (sizes & _ & Hsum & ->).
  rewrite concat_reshape_take, Hsum. apply firstn_all.
Qed.

Lemma length_array_split (ary : list B) Nsections :
  length (array_split ary Nsections) = Nsections.
Proof. unfold array_split. by rewrite length_map, length_seq. Qed.

End Chunks.

(** ** The evaluator *)

Section EvaluatorFacts.

Lemma broadcast2_same_length {B C D} (f : B -> C -> D) x y :
  length x = length y -> broadcast2 f x y = Returned (zip_with f x y).
Proof. intros H. unfold broadcast2. by rewrite decide_True. Qed.

(** Arrays whose lengths differ and are both other than one do not
    broadcast. *)
Lemma broadcast2_mismatch {B C D} (f : B -> C -> D) x y :
  length x <> length y -> length x <> 1 -> length y <> 1 ->
  broadcast2 f x y = Raised ValueError.
Proof.
  intros H Hx Hy. unfold broadcast2. rewrite decide_False by done.
  destruct x as [|a [|a' x]]; destruct y as [|b [|b' y]]; simpl in *; done.
Qed.

Lemma sum_nonneg b : (0 <= sum b)%Z.
Proof. induction b as [|[] b IH]; simpl; lia. Qed.

(** On binary arrays of the same length, summing an element-wise test that
    holds exactly for the pair [(t, p)] counts the positions where the
    labels are [t] and the predictions are [p]. *)
Lemma sum_zip_with_count (f : float -> float -> bool) t p labels preds :
  (forall a b, binary a -> binary b -> f a b = (a =? t)%float && (b =? p)%float) ->
  Forall binary labels -> Forall binary preds ->
  sum (zip_with f labels preds) = count_positions t p labels preds.
Proof.
  intros Hf Hl. revert preds.
  induction Hl as [|l labels Hb _ IH]; intros preds Hp; [done|].
  destruct Hp as [|q preds Hq Hp]; [done|].
  simpl. rewrite (Hf l q Hb Hq), (IH preds Hp).
  by destruct ((l =? t)%float && (q =? p)%float).
Qed.

Lemma count_positions_total labels preds :
  length labels = length preds ->
  Forall binary labels -> Forall binary preds ->
  (count_positions 1 1 labels preds + count_positions 0 1 labels preds
   + count_positions 0 0 labels preds + count_positions 1 0 labels preds
   = Z.of_nat (length labels))%Z.
Proof.
  intros Hlen Hl. revert preds Hlen.
  induction Hl as [|l labels Hb _ IH]; intros preds Hlen Hp.
  - by destruct preds.
  - destruct Hp as [|q preds Hq Hp]; [done|].
    injection Hlen as Hlen. specialize (IH preds Hlen Hp).
    cbn [count_positions length].
    destruct Hb as [-> | ->], Hq as [-> | ->];
      vm_compute ((_ =? _)%float); cbn [andb]; lia.
Qed.

Lemma tp_test a b :
  binary a -> binary b ->
  truthy a && truthy b = (a =? 1)%float && (b =? 1)%float.
Proof. by intros [-> | ->] [-> | ->]. Qed.

Lemma fp_test a b :
  binary a -> binary b ->
  truthy (1 - a) && truthy b = (a =? 0)%float && (b =? 1)%float.
Proof. by intros [-> | ->] [-> | ->]. Qed.

Lemma tn_test a b :
  binary a -> binary b ->
  truthy (1 - a) && truthy (1 - b) = (a =? 0)%float && (b =? 0)%float.
Proof. by intros [-> | ->] [-> | ->]. Qed.

Lemma fn_test a b :
  binary a -> binary b ->
  truthy a && truthy (1 - b) = (a =? 1)%float && (b =? 0)%float.
Proof. by intros [-> | ->] [-> | ->]. Qed.

(** The value [evaluate] returns on binary sequences of equal length, with
    the confusion counts in the specification's words. *)
Lemma evaluate_binary linear_predictor test_features test_labels model_name
    verbose :
  let test_preds := predict_labels linear_predictor test_features in
  let tp := spec_true_positive test_labels test_preds in
  let fp := spec_false_positive test_labels test_preds in
  let tn := spec_true_negative test_labels test_preds in
  let fn := spec_false_negative test_labels test_preds in
  length test_labels = length test_preds ->
  Forall binary test_labels -> Forall binary test_preds ->
  evaluate linear_predictor test_features test_labels model_name verbose
  = Returned
      {| TP := tp; FP := fp; FN := fn; TN := tn;
         Precision := precision_of tp fp; Recall := recall_of tp fn;
         Accuracy := true_divide (tp + tn) (tp + fp + tn + fn);
         F1 := (2 * precision_of tp fp * recall_of tp fn
                / (precision_of tp fp + recall_of tp fn))%float;
         Model := model_name |}.
Proof.
  intros test_preds tp fp tn fn Hlen Hl Hp.
  unfold evaluate. fold test_preds.
  unfold logical_and, one_minus.
  rewrite !broadcast2_same_length by (by rewrite ?length_map).
  rewrite zip_with_fmap_l, zip_with_fmap_r, zip_with_fmap_l, zip_with_fmap_r.
  cbn [fmap outcome_fmap Py.bind mbind outcome_bind].
  rewrite (sum_zip_with_count (fun a b => truthy a && truthy b) 1 1)
    by (done || apply tp_test).
  rewrite (sum_zip_with_count (fun a b => truthy (1 - a) && truthy b) 0 1)
    by (done || apply fp_test).
  rewrite (sum_zip_with_count (fun a b => truthy (1 - a) && truthy (1 - b)) 0 0)
    by (done || apply tn_test).
  rewrite (sum_zip_with_count (fun a b => truthy a && truthy (1 - b)) 1 0)
    by (done || apply fn_test).
  unfold print_report. rewrite decide_True by done.
  by destruct verbose.
Qed.

End EvaluatorFacts.

Section EvaluatorTheorems.
Import Examples.

(** C2. On binary sequences of equal length the confusion counts that
    [evaluate] returns are the numbers of positions where true and
    predicted label are (1,1), (0,1), (0,0) and (1,0); for true labels
    [1,0,1,1,0] and predicted labels [1,0,0,1,0] they are 2, 0, 2 and 1. *)
Theorem evaluate_confusion_counts :
  (forall linear_predictor test_features test_labels model_name verbose,
     let test_preds := predict_labels linear_predictor test_features in
     length test_labels = length test_preds ->
     Forall binary test_labels -> Forall binary test_preds ->
     exists m,
       evaluate linear_predictor test_features test_labels model_name verbose
       = Returned m /\
       TP m = spec_true_positive test_labels test_preds /\
       FP m = spec_false_positive test_labels test_preds /\
       TN m = spec_true_negative test_labels test_preds /\
       FN m = spec_false_negative test_labels test_preds) /\
  (predict_labels echo_predictor [[1]; [0]; [0]; [1]; [0]]%float
   = [1; 0; 0; 1; 0]%float /\
   exists m,
     evaluate echo_predictor [[1]; [0]; [0]; [1]; [0]]%float
       [1; 0; 1; 1; 0]%float "defaults" true = Returned m /\
     TP m = 2%Z /\ FP m = 0%Z /\ TN m = 2%Z /\ FN m = 1%Z).
Proof.
  split.
  - intros lp tf tl name verbose preds Hlen Hl Hp.
    eexists. split; [by apply evaluate_binary|]. done.
  - split; [vm_compute; reflexivity|].
    eexists. split; [vm_compute; reflexivity|]. done.
Qed.

(** C3. On binary sequences of equal length [evaluate] returns
    recall = tp / (tp + fn), precision = tp / (tp + fp),
    accuracy = (tp + tn) / (number of labels) and
    F1 = 2 * precision * recall / (precision + recall), each division being
    binary64 division of the counts.  (The equations hold with zero
    denominators too, where both sides are the same NaN.) *)
Theorem evaluate_metric_formulas linear_predictor test_features test_labels
    model_name verbose :
  let test_preds := predict_labels linear_predictor test_features in
  let tp := spec_true_positive test_labels test_preds in
  let fp := spec_false_positive test_labels test_preds in
  let tn := spec_true_negative test_labels test_preds in
  let fn := spec_false_negative test_labels test_preds in
  length test_labels = length test_preds ->
  Forall binary test_labels -> Forall binary test_preds ->
  exists m,
    evaluate linear_predictor test_features test_labels model_name verbose
    = Returned m /\
    Recall m = (tofloat tp / tofloat (tp + fn))%float /\
    Precision m = (tofloat tp / tofloat (tp + fp))%float /\
    Accuracy m
    = (tofloat (tp + tn) / tofloat (Z.of_nat (length test_labels)))%float /\
    F1 m = (2 * Precision m * Recall m / (Precision m + Recall m))%float.
Proof.
  intros preds tp fp tn fn Hlen Hl Hp.
  eexists. split; [by apply evaluate_binary|].
  cbn [Recall Precision Accuracy F1].
  split; [done|]. split; [done|]. split; [|done].
  unfold true_divide. do 2 f_equal.
  pose proof (count_positions_total test_labels preds Hlen Hl Hp) as Htot.
  fold spec_true_positive spec_false_positive spec_true_negative
    spec_false_negative in Htot.
  fold preds tp fp tn fn in Htot |- *. lia.
Qed.

Lemma broadcast2_raises {B C D} (f : B -> C -> D) x y e :
  broadcast2 f x y = Raised e -> e = ValueError.
Proof.
  unfold broadcast2. case_decide; [done|].
  destruct x as [|a [|a' x]]; destruct y as [|b [|b' y]]; simpl; congruence.
Qed.

Lemma sum_logical_and_cases x y :
  (exists n, sum <$> logical_and x y = Returned n) \/
  sum <$> logical_and x y = Raised ValueError.
Proof.
  unfold logical_and.
  destruct (broadcast2 _ x y) as [b|e] eqn:E; [left; by eexists|].
  right. apply broadcast2_raises in E as ->. done.
Qed.

(** C7 (amended). When the number of labels differs from the number of
    predictions, [evaluate] raises [ValueError] (numpy's and pandas' error
    for arrays of unequal length) provided that the report is printed
    ([verbose], the default) or that neither sequence has length one.  With
    [verbose=False] a sequence of length one is broadcast against the other
    and metrics are returned. *)
Theorem evaluate_length_mismatch linear_predictor test_features test_labels
    model_name verbose :
  let test_preds := predict_labels linear_predictor test_features in
  length test_labels <> length test_preds ->
  verbose = true \/ (length test_labels <> 1 /\ length test_preds <> 1) ->
  evaluate linear_predictor test_features test_labels model_name verbose
  = Raised ValueError.
Proof.
  intros preds Hlen Hcase. unfold evaluate. fold preds.
  destruct Hcase as [-> | [H1 H2]].
  - destruct (sum_logical_and_cases test_labels preds) as [[tp ->]| ->];
      [|done].
    destruct (sum_logical_and_cases (one_minus test_labels) preds)
      as [[fp ->]| ->]; [|done].
    destruct (sum_logical_and_cases (one_minus test_labels) (one_minus preds))
      as [[tn ->]| ->]; [|done].
    destruct (sum_logical_and_cases test_labels (one_minus preds))
      as [[fn ->]| ->]; [|done].
    rewrite !bind_Returned. unfold print_report.
    by rewrite decide_False.
  - unfold logical_and.
    by rewrite (broadcast2_mismatch _ test_labels preds).
Qed.

(** C10. If the endpoint labels each row of a batch on its own (the labels
    of an answer are [classify] of the rows sent, in order), then sending
    the test rows in 100 batches and concatenating the answers gives one
    predicted label per test row, the i-th being that of the i-th row. *)
Theorem predictions_aligned linear_predictor (classify : list float -> float)
    test_features :
  (forall batch,
     map predicted_label (predictions (linear_predictor batch))
     = map classify batch) ->
  let test_preds := predict_labels linear_predictor test_features in
  length (array_split test_features 100) = 100 /\
  concat (array_split test_features 100) = test_features /\
  test_preds = map classify test_features /\
  length test_preds = length test_features /\
  forall i row, test_features !! i = Some row ->
                test_preds !! i = Some (classify row).
Proof.
  intros Hrow preds.
  assert (Heq : preds = map classify test_features).
  { unfold preds, predict_labels. rewrite map_map.
    rewrite (map_ext _ (map classify)) by (intros batch; apply Hrow).
    rewrite <- concat_map, concat_array_split by done. done. }
  split; [apply length_array_split|].
  split; [by apply concat_array_split|]. split; [done|].
  rewrite Heq. split; [by rewrite length_map|].
  intros i row Hi. change (map classify test_features) with (classify <$> test_features).
  by rewrite list_lookup_fmap, Hi.
Qed.

End EvaluatorTheorems.

Section UndefinedMetrics.

(** What any returned result consists of, whatever the inputs. *)
Lemma evaluate_inv linear_predictor test_features test_labels model_name
    verbose m :
  evaluate linear_predictor test_features test_labels model_name verbose
  = Returned m ->
  (0 <= TP m)%Z /\ (0 <= FP m)%Z /\ (0 <= FN m)%Z /\
  Recall m = recall_of (TP m) (FN m) /\
  Precision m = precision_of (TP m) (FP m) /\
  F1 m = (2 * Precision m * Recall m / (Precision m + Recall m))%float.
Proof.
  unfold evaluate. intros H.
  apply bind_Returned_inv in H as (tp & Htp & H).
  apply bind_Returned_inv in H as (fp & Hfp & H).
  apply bind_Returned_inv in H as (tn & Htn & H).
  apply bind_Returned_inv in H as (fn & Hfn & H).
  apply bind_Returned_inv in H as (u & _ & H).
  injection H as <-. cbn [TP FP FN Recall Precision F1].
  apply fmap_Returned_inv in Htp as (b1 & _ & ->).
  apply fmap_Returned_inv in Hfp as (b2 & _ & ->).
  apply fmap_Returned_inv in Hfn as (b4 & _ & ->).
  pose proof (sum_nonneg b1). pose proof (sum_nonneg b2).
  pose proof (sum_nonneg b4). done.
Qed.

Lemma precision_recall_nonneg tp d :
  sf_nonneg (Prim2SF (true_divide tp d)).
Proof. apply div_nonneg; apply tofloat_nonneg. Qed.

Lemma nan_not_zero : nan <> 0%float.
Proof. intros H. apply (f_equal is_nan) in H. vm_compute in H. done. Qed.

Lemma count_positions_none t p labels preds :
  Forall (fun l => (l =? t)%float = false) labels ->
  count_positions t p labels preds = 0%Z.
Proof.
  intros Hl. revert preds.
  induction Hl as [|l labels Hb _ IH]; intros [|q preds]; try done.
  simpl. by rewrite Hb, IH.
Qed.

(** C5. Whenever [evaluate] returns, a metric with a zero denominator is
    NaN and therefore not 0: recall when tp + fn = 0, precision when
    tp + fp = 0, and F1 when precision + recall equals 0.  In particular,
    for all-zero true labels and all-zero predicted labels recall is NaN. *)
Theorem evaluate_undefined_metrics linear_predictor test_features test_labels
    model_name verbose m :
  evaluate linear_predictor test_features test_labels model_name verbose
  = Returned m ->
  ((TP m + FN m = 0)%Z -> Recall m = nan /\ Recall m <> 0%float) /\
  ((TP m + FP m = 0)%Z -> Precision m = nan /\ Precision m <> 0%float) /\
  ((Precision m + Recall m =? 0)%float = true ->
     F1 m = nan /\ F1 m <> 0%float) /\
  (let test_preds := predict_labels linear_predictor test_features in
   length test_labels = length test_preds ->
   Forall (fun l => l = 0%float) test_labels ->
   Forall (fun p => p = 0%float) test_preds ->
   Recall m = nan /\ Recall m <> 0%float).
Proof.
  intros Hm.
  destruct (evaluate_inv _ _ _ _ _ _ Hm) as (Htp & Hfp & Hfn & Hr & Hp & Hf).
  assert (Hrecall : (TP m + FN m = 0)%Z -> Recall m = nan /\ Recall m <> 0%float).
  { intros H0. assert (TP m = 0%Z) as Ht by lia.
    assert (FN m = 0%Z) as Hn by lia.
    rewrite Hr, Ht, Hn. split; [reflexivity|]. apply nan_not_zero. }
  split; [exact Hrecall|]. split; [|split].
  - intros H0. assert (TP m = 0%Z) as Ht by lia.
    assert (FP m = 0%Z) as Hn by lia.
    rewrite Hp, Ht, Hn. split; [reflexivity|]. apply nan_not_zero.
  - intros H0. rewrite Hf.
    destruct (add_zero_inv (Precision m) (Recall m)) as [-> ->]; [| |done|].
    + rewrite Hp. apply precision_recall_nonneg.
    + rewrite Hr. apply precision_recall_nonneg.
    + split; [reflexivity|]. apply nan_not_zero.
  - intros preds Hlen Hl Hpz. apply Hrecall.
    assert (Hbl : Forall binary test_labels).
    { eapply Forall_impl; [exact Hl|]. intros l ->. by left. }
    assert (Hbp : Forall binary preds).
    { eapply Forall_impl; [exact Hpz|]. intros l ->. by left. }
    pose proof (evaluate_binary linear_predictor test_features test_labels
                  model_name verbose Hlen Hbl Hbp) as He.
    rewrite Hm in He. injection He as ->. cbn [TP FN].
    unfold spec_true_positive, spec_false_negative.
    rewrite !count_positions_none; [done| |];
      (eapply Forall_impl; [exact Hl|]; by intros l ->).
Qed.

End UndefinedMetrics.

(** ** The reclaimer *)

Section ReclaimerTheorems.

Lemma delete_endpoint_returns fault p w :
  (delete_endpoint fault p w).1 = Returned ().
Proof.
  unfold delete_endpoint.
  by destruct (sagemaker_delete_endpoint fault (endpoint p) (live w)) as [[|] ?].
Qed.

Lemma delete_endpoint_gone p w :
  endpoint p ∉ live (delete_endpoint None p w).2.
Proof.
  unfold delete_endpoint, sagemaker_delete_endpoint.
  destruct (decide (endpoint p ∈ live w)); simpl; [|done].
  rewrite elem_of_difference, elem_of_singleton. tauto.
Qed.

(** C8. [delete_endpoint] never propagates a failure of the remove
    operation: it returns normally whether the request succeeds, fails
    because no such endpoint exists, or fails on the way.  When the endpoint
    does not exist the call changes nothing in the service and only reports
    it.  Hence two calls in a row on the same handle both return normally,
    and when the requests reach the service the second finds the endpoint
    gone and is such a no-op. *)
Theorem delete_endpoint_idempotent p w fault1 fault2 :
  let '(r1, w1) := delete_endpoint fault1 p w in
  let '(r2, w2) := delete_endpoint fault2 p w1 in
  r1 = Returned () /\ r2 = Returned () /\
  (endpoint p ∉ live w ->
     delete_endpoint None p w
     = (Returned (),
        {| live := live w;
           stdout := stdout w ++ ["Already deleted: " +:+ endpoint p] |})) /\
  (fault1 = None -> fault2 = None ->
     live w2 = live w1 /\
     stdout w2 = stdout w1 ++ ["Already deleted: " +:+ endpoint p]).
Proof.
  pose proof (delete_endpoint_returns fault1 p w) as H1.
  pose proof (delete_endpoint_gone p w) as Hgone.
  destruct (delete_endpoint fault1 p w) as [r1 w1] eqn:E1.
  pose proof (delete_endpoint_returns fault2 p w1) as H2.
  assert (Hnoop : forall w', endpoint p ∉ live w' ->
     delete_endpoint None p w'
     = (Returned (),
        {| live := live w';
           stdout := stdout w' ++ ["Already deleted: " +:+ endpoint p] |})).
  { intros w' Hw'. unfold delete_endpoint, sagemaker_delete_endpoint.
    by rewrite decide_False. }
  destruct (delete_endpoint fault2 p w1) as [r2 w2] eqn:E2.
  simpl in H1, H2. split; [done|]. split; [done|]. split; [apply Hnoop|].
  intros -> ->. rewrite E1 in Hgone. simpl in Hgone.
  rewrite (Hnoop w1 Hgone) in E2. by injection E2 as _ <-.
Qed.

End ReclaimerTheorems.

(** ** Worked instances *)

Section Instances.
Import Examples.
Local Open Scope float_scope.

Ltac all_binary :=
  repeat first
    [ apply List.Forall_nil
    | apply List.Forall_cons; [first [by left | by right]|] ].

(** Ten records: seven go to training, three to test. *)
Lemma split_sizes_and_partition_witness :
  exists s,
    (split lcg_seed lcg_interval 0 (table 10) 7%Z).1 = Returned s /\
    length (train_features s) = 7%nat /\ length (test_features s) = 3%nat.
Proof.
  destruct (split_sizes_and_partition lcg_seed lcg_interval 0 (table 10) 7%Z)
    as (s & tr & te & Hs & Hk & _ & _ & Htr & _ & Hte & _).
  - unfold wf. simpl. repeat constructor.
  - simpl. lia.
  - simpl. lia.
  - exists s. split; [exact Hs|].
    assert (Hlen : length tr = 7%nat).
    { assert (H10 : train_size 10 = Returned 7%Z) by (vm_compute; reflexivity).
      change (Z.of_nat (length (rows (table 10)))) with 10%Z in Hk.
      rewrite H10 in Hk. injection Hk as Hk. lia. }
    rewrite Htr, Hte, Hlen. split; reflexivity.
Defined.

(** C1, as stated, fails at 90 records: [90 * 0.7] is
    [62.99999999999999] in binary64, so 62 records go to training, not
    [floor(0.7 * 90) = 63]. *)
Lemma split_size_counterexample :
  exists s,
    (notebook_split lcg_seed lcg_interval (table 90) 7%Z).1 = Returned s /\
    wf (table 90) /\
    Z.of_nat (length (train_features s)) = 62%Z /\
    Z.of_nat (length (test_features s)) = 28%Z /\
    (7 * Z.of_nat (length (rows (table 90))) / 10 = 63)%Z /\
    (tofloat 90 * split_fraction)%float = 0x1.f7fffffffffffp+5.
Proof.
  eexists. split; [vm_compute; reflexivity|].
  split; [unfold wf; simpl; repeat constructor|].
  split; [vm_compute; reflexivity|]. split; [vm_compute; reflexivity|].
  split; vm_compute; reflexivity.
Qed.

(** On the 284807 records of [creditcard.csv] the training size is the
    exact [floor(0.7 * n)]: 199364 records for training, 85443 for test. *)
Lemma train_size_creditcard :
  train_size 284807 = Returned 199364%Z /\ (7 * 284807 / 10 = 199364)%Z.
Proof.
  split; vm_compute; reflexivity.
Qed.

Lemma split_keeps_label_with_features_witness :
  exists s,
    (split lcg_seed lcg_interval 0 (table 10) 7%Z).1 = Returned s /\
    paired_with (table 10) (train_features s) (train_labels s) /\
    paired_with (table 10) (test_features s) (test_labels s) /\
    records (train_features s) (train_labels s)
    ++ records (test_features s) (test_labels s) ≡ₚ rows (table 10).
Proof.
  eexists. split; [vm_compute; reflexivity|].
  apply (split_keeps_label_with_features lcg_seed lcg_interval 0 (table 10) 7%Z).
  vm_compute. reflexivity.
Defined.

Lemma split_accepts_empty_witness :
  (split lcg_seed lcg_interval 0 empty_table 7%Z).1
  = Returned {| train_features := []; train_labels := [];
                test_features := []; test_labels := [] |}.
Proof.
  apply (split_accepts_empty (A:=Z) lcg_seed lcg_interval 0 31 7%Z). lia.
Defined.

(** C6, as stated, fails on the empty dataset: the cell returns a split
    with empty subsets and raises nothing. *)
Lemma split_empty_counterexample :
  rows empty_table = [] /\
  (notebook_split lcg_seed lcg_interval empty_table 7%Z).1
  = Returned {| train_features := []; train_labels := [];
                test_features := []; test_labels := [] |} /\
  ~ raises (notebook_split lcg_seed lcg_interval empty_table 7%Z).1.
Proof.
  split; [done|]. split; [vm_compute; reflexivity|].
  intros [e He]. vm_compute in He. done.
Qed.

Lemma echo_example_labels :
  predict_labels echo_predictor [[1]; [0]; [0]; [1]; [0]] = [1; 0; 0; 1; 0].
Proof.
  vm_compute. reflexivity.
Qed.

Lemma evaluate_confusion_counts_witness :
  exists m,
    evaluate echo_predictor [[1]; [0]; [0]; [1]; [0]] [1; 0; 1; 1; 0]
      "defaults" false = Returned m /\
    TP m = 2%Z /\ FP m = 0%Z /\ TN m = 2%Z /\ FN m = 1%Z.
Proof.
  destruct (proj1 evaluate_confusion_counts echo_predictor
              [[1]; [0]; [0]; [1]; [0]] [1; 0; 1; 1; 0] "defaults"%string false)
    as (m & Hm & Htp & Hfp & Htn & Hfn).
  - rewrite echo_example_labels. reflexivity.
  - all_binary.
  - rewrite echo_example_labels. all_binary.
  - exists m. split; [exact Hm|].
    rewrite Htp, Hfp, Htn, Hfn, echo_example_labels. clear.
    vm_compute. repeat split; reflexivity.
Defined.

(** The metrics of the specification's example: recall 2/3, precision 1,
    accuracy 4/5 and F1 0.8, as the nearest doubles. *)
Lemma evaluate_metric_formulas_witness :
  exists m,
    evaluate echo_predictor [[1]; [0]; [0]; [1]; [0]] [1; 0; 1; 1; 0]
      "defaults" true = Returned m /\
    Recall m = 0x1.5555555555555p-1 /\ Precision m = 1 /\
    Accuracy m = 0x1.999999999999ap-1 /\ F1 m = 0x1.999999999999ap-1.
Proof.
  destruct (evaluate_metric_formulas echo_predictor
              [[1]; [0]; [0]; [1]; [0]] [1; 0; 1; 1; 0] "defaults"%string true)
    as (m & Hm & Hr & Hp & Ha & Hf).
  - rewrite echo_example_labels. reflexivity.
  - all_binary.
  - rewrite echo_example_labels. all_binary.
  - exists m. split; [exact Hm|].
    rewrite Hf, Hr, Hp, Ha, echo_example_labels. clear.
    vm_compute. repeat split; reflexivity.
Defined.

(** No positive label and no positive prediction: recall and precision are
    NaN.  One positive label and one positive prediction at different
    positions: precision and recall are 0 and F1 is NaN. *)
Lemma evaluate_undefined_metrics_witness :
  (exists m,
     evaluate echo_predictor [[0]; [0]; [0]] [0; 0; 0] "defaults" true
     = Returned m /\
     Recall m = nan /\ Precision m = nan /\ Recall m <> 0) /\
  (exists m,
     evaluate echo_predictor [[0]; [1]] [1; 0] "defaults" true = Returned m /\
     Precision m = 0 /\ Recall m = 0 /\ F1 m = nan /\ F1 m <> 0).
Proof.
  split.
  - assert (He : evaluate echo_predictor [[0]; [0]; [0]] [0; 0; 0]
                   "defaults" true
                 = Returned {| TP := 0; FP := 0; FN := 0; TN := 3;
                               Precision := nan; Recall := nan;
                               Accuracy := 1; F1 := nan;
                               Model := "defaults" |})
      by (vm_compute; reflexivity).
    destruct (evaluate_undefined_metrics _ _ _ _ _ _ He) as (Hr & Hp & _).
    eexists. split; [exact He|]. cbn [TP FP FN Recall Precision] in *.
    split; [by apply Hr|]. split; [by apply Hp|]. by apply Hr.
  - assert (He : evaluate echo_predictor [[0]; [1]] [1; 0] "defaults" true
                 = Returned {| TP := 0; FP := 1; FN := 1; TN := 0;
                               Precision := 0; Recall := 0;
                               Accuracy := 0; F1 := nan;
                               Model := "defaults" |})
      by (vm_compute; reflexivity).
    destruct (evaluate_undefined_metrics _ _ _ _ _ _ He) as (_ & _ & Hf & _).
    eexists. split; [exact He|]. cbn [Recall Precision F1] in *.
    split; [done|]. split; [done|]. by apply Hf.
Defined.

Lemma evaluate_length_mismatch_witness :
  evaluate echo_predictor [[1]; [0]; [1]] [1; 0] "defaults" false
  = Raised ValueError.
Proof.
  apply (evaluate_length_mismatch echo_predictor [[1]; [0]; [1]] [1; 0]
           "defaults"%string false).
  - vm_compute. lia.
  - right. vm_compute. lia.
Defined.

(** C7, as stated, fails for one label against three predictions with the
    report switched off: the label is broadcast and metrics are returned. *)
Lemma evaluate_broadcast_counterexample :
  length [1] <> length (predict_labels echo_predictor [[1]; [0]; [1]]) /\
  evaluate echo_predictor [[1]; [0]; [1]] [1] "defaults" false
  = Returned {| TP := 2; FP := 0; FN := 1; TN := 0;
                Precision := 1; Recall := 0x1.5555555555555p-1;
                Accuracy := 0x1.5555555555555p-1;
                F1 := 0x1.999999999999ap-1; Model := "defaults" |}.
Proof. split; [vm_compute; lia|vm_compute; reflexivity]. Qed.

Lemma predictions_aligned_witness :
  predict_labels echo_predictor [[1]; [0]; [0]; [1]; [0]] = [1; 0; 0; 1; 0].
Proof.
  destruct (predictions_aligned echo_predictor (hd 0)
              [[1]; [0]; [0]; [1]; [0]]) as (_ & _ & -> & _).
  - intros batch. unfold echo_predictor. cbn [predictions].
    by rewrite map_map.
  - reflexivity.
Defined.

(** Two clean calls: the first deletes, the second reports the endpoint
    gone.  A call whose request is lost on the way also returns normally
    and prints the same report, although the endpoint still exists. *)
Lemma delete_endpoint_idempotent_example :
  let p := {| endpoint := "defaults-endpoint" |} in
  let w := {| live := {["defaults-endpoint"]} : gset string; stdout := [] |} in
  (let '(r1, w1) := delete_endpoint None p w in
   let '(r2, w2) := delete_endpoint None p w1 in
   r1 = Returned () /\ r2 = Returned () /\
   stdout w2 = ["Deleted defaults-endpoint";
                "Already deleted: defaults-endpoint"]%string) /\
  (let '(r, w') := delete_endpoint (Some ConnectionError) p w in
   r = Returned () /\ "defaults-endpoint"%string ∈ live w' /\
   stdout w' = ["Already deleted: defaults-endpoint"]%string).
Proof.
  split; [vm_compute; done|].
  cbn. split; [done|]. split; [by apply elem_of_singleton|done].
Qed.

End Instances.

(** * Further properties of the notebook's code *)

(** ** Data locations (cell 7) *)

Section LocationFacts.

Lemma append_nonempty a b : b <> ""%string -> a +:+ b <> ""%string.
Proof. destruct a; [done|]. intros _. discriminate. Qed.

Lemma endswith_sep_app a b :
  b <> ""%string -> endswith_sep (a +:+ b) = endswith_sep b.
Proof.
  intros Hb. induction a as [|c a IH]; [done|].
  change (String c a +:+ b) with (String c (a +:+ b)).
  pose proof (append_nonempty a b Hb) as Hab.
  cbn [endswith_sep]. destruct (a +:+ b) eqn:E; [done|]. exact IH.
Qed.

Lemma startswith_sep_nonempty s : startswith_sep s = true -> s <> ""%string.
Proof. by destruct s. Qed.

Lemma append_assoc (a b c : string) : (a +:+ b) +:+ c = a +:+ (b +:+ c).
Proof.
  induction a as [|x a IH]; [done|].
  change (String x ((a +:+ b) +:+ c) = String x (a +:+ (b +:+ c))).
  by rewrite IH.
Qed.

Lemma join_step_absolute path b :
  startswith_sep b = true -> join_step path b = b.
Proof. intros H. unfold join_step. by rewrite H. Qed.

Lemma join_step_relative path b :
  startswith_sep b = false ->
  join_step path b
  = path +:+ (if String.eqb path "" || endswith_sep path then "" else "/") +:+ b.
Proof.
  intros H. unfold join_step. rewrite H.
  by destruct (String.eqb path "" || endswith_sep path).
Qed.

Lemma scheme_then_bucket bucket :
  String.eqb ("s3://" +:+ bucket) "" = false /\
  endswith_sep ("s3://" +:+ bucket)
  = (String.eqb bucket "" || endswith_sep bucket).
Proof.
  split; [reflexivity|].
  destruct (String.eqb_spec bucket "") as [->|Hne]; [reflexivity|].
  by rewrite endswith_sep_app.
Qed.

(** The training path for every bucket string.  A bucket that starts with
    ['/'] makes [os.path.join] drop the ['s3://'] scheme; otherwise the
    path is the scheme, the bucket and the key, with one separator before
    the key unless the bucket is empty or already ends with one.  (With an
    empty bucket the key follows the scheme directly, so its first segment
    stands where the bucket should.) *)
Theorem s3_train_path_cases bucket :
  (startswith_sep bucket = true ->
     s3_train_path bucket
     = bucket +:+ (if endswith_sep bucket then "" else "/") +:+ s3_train_key) /\
  (startswith_sep bucket = false ->
     s3_train_path bucket
     = "s3://" +:+ bucket
       +:+ (if String.eqb bucket "" || endswith_sep bucket then "" else "/")
       +:+ s3_train_key).
Proof.
  unfold s3_train_path, os_path_join. cbn [foldl].
  assert (Hkey : startswith_sep s3_train_key = false) by reflexivity.
  split; intros Hb.
  - rewrite (join_step_absolute _ bucket Hb), (join_step_relative _ _ Hkey).
    pose proof (startswith_sep_nonempty _ Hb) as Hne.
    apply String.eqb_neq in Hne. by rewrite Hne.
  - rewrite (join_step_relative _ bucket Hb), (join_step_relative _ _ Hkey).
    change (String.eqb "s3://" "" || endswith_sep "s3://") with true.
    cbn iota. change ("" +:+ bucket) with bucket.
    destruct (scheme_then_bucket bucket) as [-> ->].
    cbn [orb]. by rewrite append_assoc.
Qed.

(** For a bucket name that is not empty and has no ['/'] at either end, the
    path handed to the training job is [s3://<bucket>/<key>]: it names the
    object that the upload wrote ([Bucket(bucket).Object(s3_train_key)]). *)
Theorem s3_train_path_well_formed bucket :
  bucket <> ""%string ->
  startswith_sep bucket = false -> endswith_sep bucket = false ->
  s3_train_path bucket = "s3://" +:+ bucket +:+ "/" +:+ s3_train_key.
Proof.
  intros Hne Hs He.
  unfold s3_train_path, os_path_join. cbn [foldl].
  rewrite (join_step_relative _ bucket Hs).
  rewrite (join_step_relative _ s3_train_key) by reflexivity.
  change (String.eqb "s3://" "" || endswith_sep "s3://") with true.
  cbn iota. change ("" +:+ bucket) with bucket.
  destruct (scheme_then_bucket bucket) as [-> ->].
  apply String.eqb_neq in Hne. rewrite Hne, He. cbn [orb].
  by rewrite append_assoc.
Qed.

End LocationFacts.

(** ** Deleting every endpoint (last cell) *)

Section CleanUpFacts.
#[local] Set Warnings "-clear-no-such-hyp".

Lemma delete_endpoint_frame fault p w :
  let w' := (delete_endpoint fault p w).2 in
  length (stdout w') = S (length (stdout w)) /\
  live w' ⊆ live w /\ live w ∖ {[endpoint p]} ⊆ live w'.
Proof.
  unfold delete_endpoint, sagemaker_delete_endpoint.
  destruct fault as [e|]; [|destruct (decide (endpoint p ∈ live w))];
    cbn; rewrite length_app; cbn; (split; [lia|]); set_solver.
Qed.

(** The clean-up loop always runs to its end, whatever happens to the
    requests: it returns normally, prints exactly one line per predictor,
    creates no endpoint and removes none but those of the predictors
    listed. *)
Theorem clean_up_completes calls w :
  let names : gset string := list_to_set (map (fun c => endpoint c.2) calls) in
  (clean_up calls w).1 = Returned () /\
  length (stdout (clean_up calls w).2) = length (stdout w) + length calls /\
  live (clean_up calls w).2 ⊆ live w /\
  live w ∖ names ⊆ live (clean_up calls w).2.
Proof.
  revert w. induction calls as [|[fault p] calls IH]; intros w.
  - cbn. split; [done|]. split; [lia|]. set_solver.
  - cbn [clean_up map snd list_to_set].
    pose proof (delete_endpoint_returns fault p w) as Hr.
    pose proof (delete_endpoint_frame fault p w) as (Hlen & Hsub & Hkeep).
    destruct (delete_endpoint fault p w) as [r w']. cbn in Hr, Hlen, Hsub, Hkeep.
    subst r. destruct (IH w') as (IH1 & IH2 & IH3 & IH4).
    split; [done|]. split; [cbn [length]; lia|]. split; set_solver.
Qed.

(** When every request reaches the service, the loop leaves exactly the
    endpoints that were not listed: each listed endpoint is gone afterwards,
    also one that is listed twice or that did not exist. *)
Theorem clean_up_removes_listed (ps : list predictor) w :
  let calls := map (fun p => (None, p)) ps in
  (clean_up calls w).1 = Returned () /\
  live (clean_up calls w).2 = live w ∖ list_to_set (map endpoint ps).
Proof.
  revert w. induction ps as [|p ps IH]; intros w.
  - cbn. split; [done|]. set_solver.
  - cbn [map clean_up list_to_set].
    pose proof (delete_endpoint_returns None p w) as Hr.
    pose proof (delete_endpoint_gone p w) as Hgone.
    pose proof (delete_endpoint_frame None p w) as (_ & Hsub & Hkeep).
    destruct (delete_endpoint None p w) as [r w']. cbn in Hr, Hgone, Hsub, Hkeep.
    subst r. destruct (IH w') as [IH1 IH2].
    split; [done|]. cbn in IH2. rewrite IH2. set_solver.
Qed.

End CleanUpFacts.

(** ** The batches sent to the endpoint *)

Section BatchFacts.
Context {B : Type}.

Lemma cumsum_from_lookup acc (l : list nat) k :
  k <= length l ->
  (acc :: cumsum_from acc l) !!! k = acc + sum_list (take k l).
Proof.
  revert acc k. induction l as [|x l IH]; intros acc [|k] Hk;
    cbn in *; try lia.
  rewrite IH by lia. lia.
Qed.

Lemma sum_take_sizes q r m k :
  k <= r + m ->
  sum_list (take k (replicate r (q + 1) ++ replicate m q)) = k * q + min k r.
Proof.
  intros Hk. rewrite take_app, !take_replicate, length_replicate.
  rewrite sum_list_with_app, !sum_list_replicate. nia.
Qed.

(** Section [i] of [np.array_split(ary, N)] is the block of consecutive rows
    that starts at row [i * q + min i r] and has [q] rows, one more for the
    first [r] sections, where [q] and [r] are quotient and remainder of the
    row count by [N].  So sizes differ by at most one, and with fewer rows
    than sections the sections from the row count on are empty. *)
Theorem array_split_section (ary : list B) N i :
  N <> 0 -> i < N ->
  let q := length ary / N in
  let r := length ary mod N in
  let size := q + (if decide (i < r) then 1 else 0) in
  array_split ary N !! i = Some (take size (drop (i * q + min i r) ary)) /\
  length (take size (drop (i * q + min i r) ary)) = size /\
  (length ary < N -> length ary <= i -> array_split ary N !! i = Some []).
Proof.
  intros HN Hi q r size.
  pose proof (Nat.mod_upper_bound (length ary) N HN) as Hr.
  pose proof (Nat.div_mod_eq (length ary) N) as Hdm.
  fold q r in Hr, Hdm.
  assert (Hsec : array_split ary N !! i
                 = Some (take size (drop (i * q + min i r) ary))).
  { unfold array_split, cumsum, section_sizes. fold q r.
    rewrite list_lookup_fmap.
    assert (seq 0 N !! i = Some i) as -> by (apply lookup_seq; lia).
    cbn [fmap option_fmap option_map cumsum_from].
    change (0 + 0) with 0.
    rewrite !cumsum_from_lookup
      by (rewrite length_app, !length_replicate; lia).
    rewrite !sum_take_sizes by lia.
    f_equal. f_equal. unfold size. case_decide; lia. }
  split; [exact Hsec|]. split.
  - rewrite length_take, length_drop.
    assert (i * q + min i r + size <= length ary); [|lia].
    unfold size. case_decide; nia.
  - intros Hlt Hle. rewrite Hsec.
    assert (q = 0) as Hq by (unfold q; by apply Nat.div_small).
    assert (r = length ary) as Hr' by (unfold r; by apply Nat.mod_small).
    unfold size. rewrite decide_False by lia. rewrite Hq. done.
Qed.

End BatchFacts.

(** ** More on [evaluate] *)

Section EvaluateMore.

Lemma print_report_Returned_inv x y u :
  print_report x y = Returned u -> length x = length y.
Proof. unfold print_report. by case_decide. Qed.

Lemma logical_and_returns x y :
  length x = length y -> exists b, logical_and x y = Returned b.
Proof.
  intros H. unfold logical_and. rewrite broadcast2_same_length by done.
  by eexists.
Qed.

(** Asking for the report never changes the metrics: [evaluate] with
    [verbose=True] returns a result exactly when labels and predictions
    have the same length and [verbose=False] returns that result; and with
    the same length [evaluate] returns, whatever the values are. *)
Theorem evaluate_verbose linear_predictor test_features test_labels
    model_name :
  let test_preds := predict_labels linear_predictor test_features in
  (forall m,
     evaluate linear_predictor test_features test_labels model_name true
     = Returned m <->
     length test_labels = length test_preds /\
     evaluate linear_predictor test_features test_labels model_name false
     = Returned m) /\
  (length test_labels = length test_preds ->
   exists m,
     evaluate linear_predictor test_features test_labels model_name false
     = Returned m).
Proof.
  intros preds. split.
  - intros m. unfold evaluate. fold preds. split.
    + intros H.
      apply bind_Returned_inv in H as (tp & Htp & H).
      apply bind_Returned_inv in H as (fp & Hfp & H).
      apply bind_Returned_inv in H as (tn & Htn & H).
      apply bind_Returned_inv in H as (fn & Hfn & H).
      apply bind_Returned_inv in H as (u & Hu & H).
      apply print_report_Returned_inv in Hu.
      split; [exact Hu|]. rewrite Htp, Hfp, Htn, Hfn. exact H.
    + intros [Hlen H].
      apply bind_Returned_inv in H as (tp & Htp & H).
      apply bind_Returned_inv in H as (fp & Hfp & H).
      apply bind_Returned_inv in H as (tn & Htn & H).
      apply bind_Returned_inv in H as (fn & Hfn & H).
      rewrite Htp, Hfp, Htn, Hfn. rewrite !bind_Returned.
      unfold print_report. rewrite decide_True by exact Hlen. exact H.
  - intros Hlen. unfold evaluate. fold preds.
    unfold logical_and, one_minus.
    rewrite !broadcast2_same_length by (by rewrite ?length_map).
    by eexists.
Qed.

Lemma broadcast2_singleton {C D E} (f : C -> D -> E) a y :
  broadcast2 f [a] y = Returned (map (f a) y).
Proof.
  unfold broadcast2. case_decide as H; [|done].
  destruct y as [|b [|b' y]]; simpl in H; try lia. done.
Qed.

Lemma zip_with_replicate_l {C D E} (f : C -> D -> E) a n y :
  length y = n -> zip_with f (replicate n a) y = map (f a) y.
Proof.
  intros <-. induction y as [|b y IH]; [done|]. cbn. by rewrite IH.
Qed.

(** With the report switched off, a single true label is silently compared
    with every prediction: the result is the one for that label repeated
    once per prediction. *)
Theorem evaluate_single_label linear_predictor test_features l model_name :
  let test_preds := predict_labels linear_predictor test_features in
  evaluate linear_predictor test_features [l] model_name false
  = evaluate linear_predictor test_features
      (replicate (length test_preds) l) model_name false /\
  exists m,
    evaluate linear_predictor test_features [l] model_name false = Returned m.
Proof.
  intros preds. unfold evaluate. fold preds.
  unfold logical_and, one_minus. cbn [map].
  rewrite !broadcast2_singleton.
  change (map (fun a => (1 - a)%float) (replicate (length preds) l))
    with ((fun a => (1 - a)%float) <$> replicate (length preds) l).
  rewrite fmap_replicate.
  rewrite (broadcast2_same_length _ (replicate (length preds) l) preds)
    by (by rewrite length_replicate).
  rewrite (broadcast2_same_length _ (replicate (length preds) (1 - l)%float) preds)
    by (by rewrite length_replicate).
  rewrite (broadcast2_same_length _ (replicate (length preds) l) (map _ preds))
    by (by rewrite length_replicate, length_map).
  rewrite (broadcast2_same_length _ (replicate (length preds) (1 - l)%float)
             (map _ preds))
    by (by rewrite length_replicate, length_map).
  rewrite !zip_with_replicate_l by (by rewrite ?length_map).
  split; [reflexivity|]. by eexists.
Qed.

End EvaluateMore.

Section EvaluateCounts.

Lemma count_positions_marginals labels preds :
  length labels = length preds ->
  Forall binary labels -> Forall binary preds ->
  (count_positions 1 1 labels preds + count_positions 1 0 labels preds
   = count_ones labels)%Z /\
  (count_positions 1 1 labels preds + count_positions 0 1 labels preds
   = count_ones preds)%Z.
Proof.
  intros Hlen Hl. revert preds Hlen.
  induction Hl as [|l labels Hb _ IH]; intros preds Hlen Hp.
  - by destruct preds.
  - destruct Hp as [|q preds Hq Hp]; [done|].
    injection Hlen as Hlen. destruct (IH preds Hlen Hp) as [IH1 IH2].
    cbn [count_positions count_ones foldr].
    fold (count_ones labels). fold (count_ones preds).
    destruct Hb as [-> | ->], Hq as [-> | ->];
      vm_compute ((_ =? _)%float); cbn [andb]; lia.
Qed.

(** On binary sequences of equal length the counts that [evaluate] returns
    have the right margins: true positives and false negatives together
    are the labels equal to 1 (the denominator of recall does not depend on
    the predictions), true positives and false positives together are the
    predictions equal to 1, and the four counts add up to the number of
    labels. *)
Theorem evaluate_margins linear_predictor test_features test_labels
    model_name verbose :
  let test_preds := predict_labels linear_predictor test_features in
  length test_labels = length test_preds ->
  Forall binary test_labels -> Forall binary test_preds ->
  exists m,
    evaluate linear_predictor test_features test_labels model_name verbose
    = Returned m /\
    (TP m + FN m = count_ones test_labels)%Z /\
    (TP m + FP m = count_ones test_preds)%Z /\
    (TP m + FP m + TN m + FN m = Z.of_nat (length test_labels))%Z /\
    (0 <= TP m)%Z /\ (0 <= FP m)%Z /\ (0 <= TN m)%Z /\ (0 <= FN m)%Z.
Proof.
  intros preds Hlen Hl Hp.
  eexists. split; [by apply evaluate_binary|].
  cbn [TP FP TN FN].
  destruct (count_positions_marginals test_labels preds Hlen Hl Hp)
    as [H1 H2].
  pose proof (count_positions_total test_labels preds Hlen Hl Hp) as Htot.
  assert (Hnn : forall t p a b, (0 <= count_positions t p a b)%Z).
  { intros t p a. induction a as [|x a IH]; intros [|y b]; cbn; try lia.
    specialize (IH b). destruct (_ && _); lia. }
  unfold spec_true_positive, spec_false_positive, spec_true_negative,
    spec_false_negative. fold preds.
  repeat split; try apply Hnn; lia.
Qed.

Lemma concat_replicate_nil {C} n : concat (replicate n ([] : list C)) = [].
Proof. induction n as [|n IH]; [done|]. exact IH. Qed.

(** On an empty test set, with an endpoint that answers an empty batch with
    no prediction, [evaluate] does not fail: it returns four counts equal
    to zero, and the accuracy is NaN (zero divided by zero). *)
Theorem evaluate_empty_test_set linear_predictor model_name verbose :
  predictions (linear_predictor []) = [] ->
  exists m,
    evaluate linear_predictor [] [] model_name verbose = Returned m /\
    TP m = 0%Z /\ FP m = 0%Z /\ FN m = 0%Z /\ TN m = 0%Z /\
    Accuracy m = nan /\ Model m = model_name.
Proof.
  intros Hlp.
  assert (Hsplit : array_split ([] : list (list float)) 100
                   = replicate 100 []) by (vm_compute; reflexivity).
  assert (Hpreds : predict_labels linear_predictor [] = []).
  { unfold predict_labels. rewrite Hsplit.
    change (map ?f (replicate 100 ?x)) with (f <$> replicate 100 x).
    rewrite fmap_replicate, Hlp.
    change (map ?f (replicate 100 ?x)) with (f <$> replicate 100 x).
    rewrite fmap_replicate. apply concat_replicate_nil. }
  unfold evaluate. rewrite Hpreds.
  destruct verbose; eexists; (split; [reflexivity|]); cbn; repeat split.
Qed.

End EvaluateCounts.

(** ** More on the split *)

Section SplitMore.
Context {A : Type} {rng : Type}.
Variable seed_state : Z -> rng.
Variable random_interval : rng -> nat -> nat * rng.

Local Abbreviation split := (split (A:=A) seed_state random_interval).

Lemma split_lengths seed (d : ndarray2 A) g s k :
  (split seed d g).1 = Returned s ->
  train_size (Z.of_nat (length (rows d))) = Returned k ->
  (0 <= k <= Z.of_nat (length (rows d)))%Z ->
  length (train_features s) = Z.to_nat k /\
  length (test_features s) = length (rows d) - Z.to_nat k.
Proof.
  intros Hs Hk Hr.
  destruct (split_inv _ _ _ _ _ _ Hs) as (k' & Hk' & -> & _ & -> & _).
  rewrite Hk in Hk'. injection Hk' as <-.
  pose proof (shuffle_length random_interval (rows d) (seed_state seed)) as Hl.
  unfold all_but_last_column, slice_to, slice_from, slice_index.
  rewrite !length_map, length_take, length_drop, Hl.
  destruct (Z.ltb_spec k 0); lia.
Qed.

(** The training subset holds 70% of the records up to less than two
    records: ten times its size is at most [7n] and more than [7n - 20].
    A dataset with at least one record always leaves a test subset that is
    not empty, and one with at least two records a training subset that is
    not empty; a single record goes to the test subset. *)
Theorem split_share seed (d : ndarray2 A) g :
  let n := length (rows d) in
  wf d -> ncols d <> 0 -> (Z.of_nat n < 2 ^ 50)%Z ->
  exists s,
    (split seed d g).1 = Returned s /\
    10 * length (train_features s) <= 7 * n /\
    7 * n < 10 * length (train_features s) + 20 /\
    length (train_features s) + length (test_features s) = n /\
    (1 <= n -> test_features s <> []) /\
    (2 <= n -> train_features s <> []) /\
    (n = 1 -> train_features s = []).
Proof.
  intros n Hwf Hnc Hn.
  destruct (train_size_bounds (Z.of_nat n)) as (k & Hk & Hb & Hne); [lia|].
  assert (Hr : (0 <= k <= Z.of_nat n)%Z)
    by (apply train_size_range; [lia|done]).
  destruct (split_returns seed_state random_interval seed d g k Hwf Hnc Hk)
    as [s Hs].
  destruct (split_lengths seed d g s k Hs Hk Hr) as [Htr Hte].
  fold n in Hte.
  pose proof (Z.div_mod (7 * Z.of_nat n) 10 ltac:(lia)) as Hdm.
  pose proof (Z.mod_pos_bound (7 * Z.of_nat n) 10 ltac:(lia)) as Hm.
  pose proof (Z.div_mod (Z.of_nat n) 10 ltac:(lia)) as Hdn.
  pose proof (Z.mod_pos_bound (Z.of_nat n) 10 ltac:(lia)) as Hmn.
  exists s. split; [exact Hs|].
  assert (Hlen0 : forall B (l : list B), l = [] -> length l = 0)
    by (by intros B l ->).
  assert (Hlen1 : forall B (l : list B), length l = 0 -> l = [])
    by (intros B [|x l]; [done|discriminate]).
  split; [lia|]. split; [lia|]. split; [lia|].
  split; [|split].
  - intros H1 He. apply Hlen0 in He. lia.
  - intros H2 He. apply Hlen0 in He.
    destruct (Z.eq_dec (Z.of_nat n mod 10)%Z 0%Z) as [Hz|Hz];
      [|specialize (Hne Hz)]; lia.
  - intros H1. apply Hlen1.
    assert ((Z.of_nat n mod 10)%Z <> 0%Z) as Hz by lia.
    specialize (Hne Hz). lia.
Qed.

End SplitMore.

Section TrainSizeMore.
Local Open Scope Z_scope.

(** A larger dataset never gets a smaller training subset. *)
Theorem train_size_monotone n m :
  0 <= n <= m -> m < 2 ^ 50 ->
  exists a b,
    train_size n = Returned a /\ train_size m = Returned b /\ a <= b.
Proof.
  intros Hnm Hm.
  destruct (train_size_bounds n) as (a & Ha & Hab & Hane); [lia|].
  destruct (train_size_bounds m) as (b & Hb & Hbb & Hbne); [lia|].
  exists a, b. split; [done|]. split; [done|].
  pose proof (Z.div_mod (7 * n) 10 ltac:(lia)).
  pose proof (Z.mod_pos_bound (7 * n) 10 ltac:(lia)).
  pose proof (Z.div_mod (7 * m) 10 ltac:(lia)).
  pose proof (Z.mod_pos_bound (7 * m) 10 ltac:(lia)).
  pose proof (Z.div_mod m 10 ltac:(lia)).
  pose proof (Z.mod_pos_bound m 10 ltac:(lia)).
  destruct (Z.eq_dec n m) as [->|Hneq].
  { rewrite Ha in Hb. injection Hb as ->. lia. }
  destruct (Z.eq_dec (m mod 10) 0) as [Hz|Hz]; [|specialize (Hbne Hz)]; lia.
Qed.

End TrainSizeMore.

(** ** Conversion and the split *)

Section ConversionFacts.
Context {A B : Type} {rng : Type}.
Variable seed_state : Z -> rng.
Variable random_interval : rng -> nat -> nat * rng.
Variable conv : A -> B.

Lemma Forall2_map_eq {C D} (f : C -> D) l l' :
  Forall2 (fun a b => b = f a) l l' -> l' = map f l.
Proof. induction 1 as [|a b l l' -> _ IH]; [done|]. cbn. by rewrite IH. Qed.

Lemma shuffle_map {C D} (f : C -> D) (x : list C) g :
  shuffle random_interval (map f x) g
  = (map f (shuffle random_interval x g).1, (shuffle random_interval x g).2).
Proof.
  unfold shuffle. rewrite length_map.
  destruct (shuffle_loop_Forall2 random_interval (fun a b => b = f a)
              (length x - 1) x (map f x) g) as [H1 H2].
  { induction x as [|a x IH]; constructor; done. }
  apply Forall2_map_eq in H1.
  destruct (shuffle_loop random_interval (length x - 1) (map f x) g) as [y gy].
  cbn in H1, H2. by rewrite H1, H2.
Qed.

Lemma slice_to_map {C D} (f : C -> D) k (l : list C) :
  slice_to k (map f l) = map f (slice_to k l).
Proof. unfold slice_to. rewrite length_map. symmetry. apply fmap_take. Qed.

Lemma slice_from_map {C D} (f : C -> D) k (l : list C) :
  slice_from k (map f l) = map f (slice_from k l).
Proof. unfold slice_from. rewrite length_map. symmetry. apply fmap_drop. Qed.

Lemma all_but_last_column_map (rs : list (list A)) :
  all_but_last_column (map (map conv) rs)
  = map (map conv) (all_but_last_column rs).
Proof.
  unfold all_but_last_column. rewrite !map_map.
  apply map_ext. intros r. apply slice_to_map.
Qed.

Lemma mapM_last_map (rs : list (list A)) :
  mapM last (map (map conv) rs) = map conv <$> mapM last rs.
Proof.
  induction rs as [|r rs IH]; [done|].
  cbn [map mapM]. rewrite IH.
  change (map conv r) with (conv <$> r). rewrite fmap_last.
  destruct (last r) as [a|]; [|done]. cbn.
  by destruct (mapM last rs).
Qed.

Lemma last_column_map nc (rs : list (list A)) :
  last_column nc (map (map conv) rs) = map conv <$> last_column nc rs.
Proof.
  unfold last_column. case_decide; [done|].
  rewrite mapM_last_map. by destruct (mapM last rs).
Qed.

(** The element conversion ([astype]) and the split commute: splitting the
    converted table gives the converted subsets of the split of the
    original table, with the same failure if there is one and the same
    generator state afterwards (the shuffle and the cut do not look at the
    values).  So the [vectors] and [labels] that the cell writes out are the
    training subset of the converted table. *)
Theorem split_astype seed (d : ndarray2 A) g :
  split (A:=B) seed_state random_interval seed (astype conv d) g
  = (astype_split conv <$> (split seed_state random_interval seed d g).1,
     (split seed_state random_interval seed d g).2) /\
  (forall s,
     (split seed_state random_interval seed d g).1 = Returned s ->
     exists s',
       (split (A:=B) seed_state random_interval seed (astype conv d) g).1
       = Returned s' /\
       vectors conv s = train_features s' /\ labels conv s = train_labels s').
Proof.
  assert (Heq : split (A:=B) seed_state random_interval seed (astype conv d) g
    = (astype_split conv <$> (split seed_state random_interval seed d g).1,
       (split seed_state random_interval seed d g).2)).
  { unfold split. cbn [astype rows ncols].
    rewrite shuffle_map.
    destruct (shuffle random_interval (rows d) (seed_state seed)) as [sh g'].
    cbn [fst snd]. rewrite length_map.
    destruct (train_size (Z.of_nat (length sh))) as [k|e]; [|done].
    rewrite !bind_Returned.
    rewrite slice_to_map, slice_from_map, !all_but_last_column_map,
      !last_column_map.
    destruct (last_column (ncols d) (slice_to k sh)) as [trl|e]; [|done].
    destruct (last_column (ncols d) (slice_from k sh)) as [tel|e]; done. }
  split; [exact Heq|].
  intros s Hs. rewrite Heq. cbn [fst]. rewrite Hs.
  exists (astype_split conv s). split; [reflexivity|]. split; reflexivity.
Qed.

End ConversionFacts.

Section SplitFailure.
Context {A : Type} {rng : Type}.
Variable seed_state : Z -> rng.
Variable random_interval : rng -> nat -> nat * rng.

(** The cell fails exactly on a table without columns, at the selection of
    the label column, and then with [IndexError], also when the table has
    no rows. *)
Theorem split_index_error seed (d : ndarray2 A) g :
  wf d -> (Z.of_nat (length (rows d)) < 2 ^ 50)%Z ->
  ((split seed_state random_interval seed d g).1 = Raised IndexError
   <-> ncols d = 0) /\
  (forall e, (split seed_state random_interval seed d g).1 = Raised e ->
             e = IndexError).
Proof.
  intros Hwf Hn.
  destruct (train_size_bounds (Z.of_nat (length (rows d))))
    as (k & Hk & _); [lia|].
  destruct (decide (ncols d = 0)) as [H0|H0].
  - assert (Hraise : (split seed_state random_interval seed d g).1
                     = Raised IndexError).
    { unfold split.
      pose proof (shuffle_length random_interval (rows d) (seed_state seed))
        as Hlen.
      destruct (shuffle random_interval (rows d) (seed_state seed))
        as [sh g'].
      cbn in Hlen. cbn [fst]. rewrite Hlen, Hk, bind_Returned.
      rewrite H0. reflexivity. }
    rewrite Hraise. split; [done|]. by intros e [= <-].
  - destruct (split_returns seed_state random_interval seed d g k Hwf H0 Hk)
      as [s Hs].
    rewrite Hs. split; [|done]. split; [done|]. intros Hc. done.
Qed.

End SplitFailure.

(** ** Further worked instances *)

Section MoreInstances.
Import Examples.
Local Open Scope float_scope.

Lemma s3_train_path_well_formed_witness :
  s3_train_path "my-bucket"
  = "s3://my-bucket/sagemaker/DEMO-linear-learner-loss-weights/train/recordio-pb-data"%string.
Proof.
  apply (s3_train_path_well_formed "my-bucket"); [discriminate| |];
    reflexivity.
Defined.

(** Seven rows in three sections: the middle one holds rows 3 and 4. *)
Lemma array_split_section_witness :
  array_split [10; 11; 12; 13; 14; 15; 16]%nat 3 !! 1%nat
  = Some [13; 14]%nat.
Proof.
  destruct (array_split_section [10; 11; 12; 13; 14; 15; 16]%nat 3 1)
    as (H & _); [lia|lia|].
  rewrite H. reflexivity.
Defined.

Lemma evaluate_margins_witness :
  exists m,
    evaluate echo_predictor [[1]; [0]; [0]; [1]; [0]] [1; 0; 1; 1; 0]
      "defaults" true = Returned m /\
    (TP m + FN m = 3)%Z /\ (TP m + FP m = 2)%Z.
Proof.
  destruct (evaluate_margins echo_predictor
              [[1]; [0]; [0]; [1]; [0]] [1; 0; 1; 1; 0] "defaults"%string true)
    as (m & Hm & H1 & H2 & _).
  - rewrite echo_example_labels. reflexivity.
  - repeat first [ apply List.Forall_nil
                 | apply List.Forall_cons; [first [by left | by right]|] ].
  - rewrite echo_example_labels.
    repeat first [ apply List.Forall_nil
                 | apply List.Forall_cons; [first [by left | by right]|] ].
  - exists m. split; [exact Hm|].
    rewrite H1, H2, echo_example_labels. clear.
    split; vm_compute; reflexivity.
Defined.

Lemma evaluate_empty_test_set_witness :
  exists m,
    evaluate echo_predictor [] [] "defaults" true = Returned m /\
    TP m = 0%Z /\ FP m = 0%Z /\ FN m = 0%Z /\ TN m = 0%Z /\
    Accuracy m = nan /\ Model m = "defaults"%string.
Proof.
  apply (evaluate_empty_test_set echo_predictor "defaults"%string true).
  reflexivity.
Defined.

Lemma split_share_witness :
  exists s,
    (split lcg_seed lcg_interval 0 (table 10) 7%Z).1 = Returned s /\
    test_features s <> [] /\ train_features s <> [].
Proof.
  destruct (split_share lcg_seed lcg_interval 0 (table 10) 7%Z)
    as (s & Hs & _ & _ & _ & Hte & Htr & _).
  - unfold wf. simpl. repeat constructor.
  - simpl. lia.
  - vm_compute. reflexivity.
  - exists s. split; [exact Hs|]. clear Hs.
    split; [apply Hte|apply Htr]; simpl; lia.
Defined.

(** 89 and 90 records: both give 62 training records. *)
Lemma train_size_monotone_witness :
  exists a b,
    train_size 89 = Returned a /\ train_size 90 = Returned b /\ (a <= b)%Z.
Proof.
  apply (train_size_monotone 89 90); [lia|vm_compute; reflexivity].
Defined.

Lemma split_index_error_witness :
  (split lcg_seed lcg_interval 0 {| ncols := 0; rows := [[]; []] |} 7%Z).1
  = Raised (A:=Split (A:=Z)) IndexError.
Proof.
  apply (split_index_error (A:=Z) lcg_seed lcg_interval 0
           {| ncols := 0; rows := [[]; []] |} 7%Z).
  - unfold wf. simpl. repeat constructor.
  - vm_compute. reflexivity.
  - reflexivity.
Defined.

(** A bucket written with a leading ['/'] loses the scheme; an empty bucket
    puts the key right after it. *)
Lemma s3_train_path_cases_witness :
  s3_train_path "/my-bucket"
  = "/my-bucket/sagemaker/DEMO-linear-learner-loss-weights/train/recordio-pb-data"%string /\
  s3_train_path ""
  = "s3://sagemaker/DEMO-linear-learner-loss-weights/train/recordio-pb-data"%string.
Proof.
  split.
  - apply (proj1 (s3_train_path_cases "/my-bucket")). reflexivity.
  - apply (proj2 (s3_train_path_cases "")). reflexivity.
Defined.

Lemma evaluate_verbose_witness :
  exists m,
    evaluate echo_predictor [[1]; [0]; [0]; [1]; [0]] [1; 0; 1; 1; 0]
      "defaults" true = Returned m /\
    evaluate echo_predictor [[1]; [0]; [0]; [1]; [0]] [1; 0; 1; 1; 0]
      "defaults" false = Returned m.
Proof.
  destruct (evaluate_verbose echo_predictor
              [[1]; [0]; [0]; [1]; [0]] [1; 0; 1; 1; 0] "defaults"%string)
    as [Hiff Hret].
  destruct Hret as [m Hm]; [rewrite echo_example_labels; reflexivity|].
  exists m. split; [|exact Hm].
  apply Hiff. split; [rewrite echo_example_labels; reflexivity|exact Hm].
Defined.

(** Doubling every entry of a ten-row table. *)
Lemma split_astype_witness :
  exists s s',
    (split lcg_seed lcg_interval 0 (table 10) 7%Z).1 = Returned s /\
    (split lcg_seed lcg_interval 0 (astype (Z.mul 2) (table 10)) 7%Z).1
    = Returned s' /\
    vectors (Z.mul 2) s = train_features s' /\
    labels (Z.mul 2) s = train_labels s'.
Proof.
  destruct (split_returns lcg_seed lcg_interval 0 (table 10) 7%Z 7%Z)
    as [s Hs].
  - unfold wf. simpl. repeat constructor.
  - simpl. lia.
  - vm_compute. reflexivity.
  - destruct (proj2 (split_astype lcg_seed lcg_interval (Z.mul 2) 0
                       (table 10) 7%Z) s Hs) as (s' & Hs' & Hv & Hl).
    exists s, s'. repeat split; assumption.
Defined.

End MoreInstances.
